(** * pyco-particles: a shallow embedding of the particle emitter

    The development follows [src/particle_presets.py] and
    [src/particle_emitter.py].  Python objects become records, the
    mutable particle list becomes a list that the update loop threads
    through an index-based iterator (exactly as CPython's list iterator
    walks a list that is being mutated), exceptions become a result
    type, and the [random] module becomes a tape of draws.

    Numbers.  Python [int]s are [Z].  Python [float]s are idealised as
    exact rationals [Q]: rounding, overflow and NaN are outside the
    model, every other operation (comparison, truncation by [int()],
    floor division, division by zero raising) is written out.  The
    transcendental functions of the [math] module and pygame's colour
    name parser are external to the repository and are taken as
    parameters ([Externals]). *)

From Stdlib Require Import QArith Qround Qabs ZArith Lia Lqa Ascii String.
From stdpp Require Import gmap strings list.

(** ** Python runtime: exceptions and results *)

Inductive PyExn :=
| ValueError
| ZeroDivisionError
| IndexError
| AttributeError
| TypeError.

Inductive PyResult (A : Type) :=
| Ok (a : A)
| Raise (e : PyExn).

Arguments Ok {A} a.
Arguments Raise {A} e.

#[global] Instance PyResult_ret : MRet PyResult := fun A a => Ok a.

#[global] Instance PyResult_bind : MBind PyResult := fun A B k m =>
  match m with
  | Ok a => k a
  | Raise e => Raise e
  end.

(** [seq[i]] on a Python list: negative indices count from the end,
    anything outside [-len, len) raises [IndexError]. *)
Definition py_getitem {A} (l : list A) (i : Z) : PyResult A :=
  let n := Z.of_nat (length l) in
  let k := if (i <? 0)%Z then (n + i)%Z else i in
  if ((0 <=? k)%Z && (k <? n)%Z)%bool then
    match l !! Z.to_nat k with
    | Some v => Ok v
    | None => Raise IndexError
    end
  else Raise IndexError.

(** ** Numbers *)

Definition Qlt_bool (u v : Q) : bool := negb (Qle_bool v u).

(** The builtin [max(u, v)]: [v] when [v > u], otherwise [u]. *)
Definition py_max (u v : Q) : Q := if Qlt_bool u v then v else u.

(** [int(u)] on a float truncates toward zero. *)
Definition py_int (u : Q) : Z := Z.quot (Qnum u) (Z.pos (Qden u)).

(** [u / v] on floats raises on a zero divisor. *)
Definition py_truediv (u v : Q) : PyResult Q :=
  if Qeq_bool v 0 then Raise ZeroDivisionError else Ok (u / v)%Q.

(** [u // v] on floats: the floor of the quotient, as a float. *)
Definition py_floordiv (u v : Q) : PyResult Q :=
  if Qeq_bool v 0 then Raise ZeroDivisionError
  else Ok (inject_Z (Qfloor (u / v))).

(** [math.pi], the double nearest to pi, as the exact rational it is. *)
Definition math_pi : Q := (884279719003555 # 281474976710656)%Q.

(** Modelled from the spec: [lerp] of [src/corefuncs.py], which is not
    among the sources; the glossary gives it as linear interpolation
    between two numeric values by a factor. *)
Definition lerp (u v t : Q) : Q := (u + (v - u) * t)%Q.

(** Modelled from the spec: [clamp] of [src/corefuncs.py], which is not
    among the sources; section 4.4 uses [clamp(v, 1, 10)] to bring a
    size into the range of the shape table. *)
Definition clamp (v lo hi : Z) : Z := Z.max lo (Z.min v hi).

(** ** pygame values *)

Module Color.
Record t := mk { r : Z; g : Z; b : Z; a : Z }.

(** [Color.__eq__] compares the four channels. *)
Definition eqb (c1 c2 : t) : bool :=
  ((r c1 =? r c2)%Z && (g c1 =? g c2)%Z && (b c1 =? b c2)%Z && (a c1 =? a c2)%Z)%bool.
End Color.

Definition channel_ok (c : Z) : bool := ((0 <=? c)%Z && (c <=? 255)%Z)%bool.

(** [pygame.Color(r, g, b, a)] rejects channels outside 0..255. *)
Definition pygame_Color (cr cg cb ca : Z) : PyResult Color.t :=
  if (channel_ok cr && channel_ok cg && channel_ok cb && channel_ok ca)%bool
  then Ok (Color.mk cr cg cb ca)
  else Raise ValueError.

Definition white : Color.t := Color.mk 255 255 255 255.

Module Vector2.
Record t := mk { x : Q; y : Q }.

Definition sub (v w : t) : t := mk (x v - x w)%Q (y v - y w)%Q.

(** pygame compares vectors componentwise up to [epsilon = 1e-6]. *)
Definition epsilon : Q := (1 # 1000000)%Q.

Definition eqb (v w : t) : bool :=
  (Qlt_bool (Qabs (x v - x w)) epsilon && Qlt_bool (Qabs (y v - y w)) epsilon)%bool.
End Vector2.

(** [pygame.Rect] holds integers; float arguments are truncated. *)
Record Rect := mkRect { rect_left : Z; rect_top : Z; rect_w : Z; rect_h : Z }.

Definition pygame_Rect (rx ry rw rh : Q) : Rect :=
  mkRect (py_int rx) (py_int ry) (py_int rw) (py_int rh).

(** [Rect.collidepoint] on an integer rectangle: the coordinates of the
    point are converted to C ints (truncated) first; the rectangle is
    half-open on its right and bottom edges. *)
Definition collidepoint (rc : Rect) (p : Vector2.t) : bool :=
  let px := py_int (Vector2.x p) in
  let py := py_int (Vector2.y p) in
  ((rect_left rc <=? px)%Z && (px <? rect_left rc + rect_w rc)%Z
   && (rect_top rc <=? py)%Z && (py <? rect_top rc + rect_h rc)%Z)%bool.

(** What a surface shows.  [fill] repaints every pixel, so a filled
    circle template is a uniformly coloured square afterwards. *)
Inductive Paint :=
| Blank
| Filled (c : Color.t)
| FilledRGB (cr cg cb : Z)
| Disc (c : Color.t) (cx cy radius : Z).

Record Surface := mkSurface {
  surf_w : Z;
  surf_h : Z;
  paint : Paint;
  surf_alpha : option Q
}.

Definition new_Surface (w h : Z) : Surface := mkSurface w h Blank None.

Definition Surface_fill (c : Color.t) (s : Surface) : Surface :=
  mkSurface (surf_w s) (surf_h s) (Filled c) (surf_alpha s).

(** [fill] with a plain [(r, g, b)] tuple; the backend rejects a
    channel outside 0..255. *)
Definition Surface_fill_rgb (cr cg cb : Z) (s : Surface) : PyResult Surface :=
  if (channel_ok cr && channel_ok cg && channel_ok cb)%bool
  then Ok (mkSurface (surf_w s) (surf_h s) (FilledRGB cr cg cb) (surf_alpha s))
  else Raise ValueError.

Definition Surface_set_alpha (al : Q) (s : Surface) : Surface :=
  mkSurface (surf_w s) (surf_h s) (paint s) (Some al).

Definition draw_circle (c : Color.t) (cx cy radius : Z) (s : Surface) : Surface :=
  mkSurface (surf_w s) (surf_h s) (Disc c cx cy radius) (surf_alpha s).

(** [Surface.copy()] gives an independent object; on values it is the
    identity. *)
Definition Surface_copy (s : Surface) : Surface := s.

(** The calls [render] makes into the rasterization backend. *)
Inductive DrawCall :=
| aaline (c : Color.t) (start_pos end_pos : Vector2.t)
| fblits (batch : list (option Surface * Vector2.t))
| blit_add (s : Surface) (dest : Vector2.t).

(** ** The [random] module

    The generator is a tape of raw draws.  Each primitive decodes the
    next cell onto exactly the support CPython gives it: [random()]
    onto [0, 1), [_randbelow(n)] onto [0, n).  A tape that runs out
    continues with zeros. *)

Definition Tape := list Q.

Definition next_draw (tape : Tape) : Q * Tape :=
  match tape with
  | [] => (0%Q, [])
  | q :: rest => (q, rest)
  end.

Definition random_random (tape : Tape) : Q * Tape :=
  let '(q, tape) := next_draw tape in ((q - inject_Z (Qfloor q))%Q, tape).

Definition _randbelow (n : Z) (tape : Tape) : Z * Tape :=
  let '(q, tape) := next_draw tape in ((Qfloor q mod n)%Z, tape).

(** [random.uniform(lo, hi)] is [lo + (hi - lo) * random()]. *)
Definition random_uniform (lo hi : Q) (tape : Tape) : Q * Tape :=
  let '(u, tape) := random_random tape in ((lo + (hi - lo) * u)%Q, tape).

(** [random.randint(lo, hi)] is [randrange(lo, hi + 1)]: both ends are
    included. *)
Definition random_randint (lo hi : Z) (tape : Tape) : Z * Tape :=
  let '(k, tape) := _randbelow (hi - lo + 1) tape in ((lo + k)%Z, tape).

(** [random.choice] on a two-element list literal. *)
Definition random_choice {A} (first second : A) (tape : Tape) : A * Tape :=
  let '(k, tape) := _randbelow 2 tape in
  (if (k =? 0)%Z then first else second, tape).

(** What the repository borrows from [math] and from pygame's colour
    parser. *)
Class Externals := {
  math_sin : Q -> Q;
  math_sqrt : Q -> Q;
  Color_of_str : string -> option Color.t
}.

(** ** particle_presets.py *)

Inductive ParticleType := RECT | CIRCLE | LINE | ANIMATION.
Inductive SpawnType := AUTO | EVENT.

(** The dataclass, read at the types its annotations declare. *)
Record ParticleBaseSettings := mkSettings {
  spawn_rate : Z;
  spawn_delay : Q;
  particle_chance : Q;
  color_start : Color.t;
  color_end : Color.t;
  gravity : Q;
  sin_x : bool;
  sin_y : bool;
  particle_velocity_x : Q;
  random_x_dir : bool;
  particle_velocity_y : Q;
  random_y_dir : bool;
  random_velocity_deviation : Q;
  lifetime : Q;
  start_size : Z;
  end_size : Z;
  particle_type : ParticleType;
  spawn_type : SpawnType;
  glow_size : Z;
  random_glow : Z;
  start_alpha : Z;
  end_alpha : Z
}.

(** [ParticleBaseSettings()] *)
Definition default_settings : ParticleBaseSettings := {|
  spawn_rate := 1; spawn_delay := 1; particle_chance := 1;
  color_start := white; color_end := white; gravity := (981 # 1000)%Q;
  sin_x := false; sin_y := false;
  particle_velocity_x := 0; random_x_dir := false;
  particle_velocity_y := 0; random_y_dir := false;
  random_velocity_deviation := 0; lifetime := 1;
  start_size := 1; end_size := 1;
  particle_type := RECT; spawn_type := AUTO;
  glow_size := 0; random_glow := 0; start_alpha := 255; end_alpha := 255
|}.

(** [ExampleSettings()] *)
Definition ExampleSettings : ParticleBaseSettings := {|
  spawn_rate := 10; spawn_delay := (1 # 10)%Q; particle_chance := 40;
  color_start := white; color_end := white; gravity := (981 # 1000)%Q;
  sin_x := false; sin_y := true;
  particle_velocity_x := (-150)%Q; random_x_dir := false;
  particle_velocity_y := 0; random_y_dir := false;
  random_velocity_deviation := 40; lifetime := 25;
  start_size := 20; end_size := 1;
  particle_type := LINE; spawn_type := AUTO;
  glow_size := 0; random_glow := 0; start_alpha := 255; end_alpha := 255
|}.

(** *** Objects as attribute dictionaries

    [apply_config] works by reflection ([fields], [hasattr], [getattr],
    [setattr]) on arbitrary objects, so at that level an object is the
    finite map from its attribute names to dynamically typed values. *)

Inductive PyValue :=
| PyInt (n : Z)
| PyFloat (q : Q)
| PyBool (flag : bool)
| PyStr (s : string)
| PyColor (c : Color.t).

(** [fields(self)]: the names the dataclass declares, in order. *)
Definition fields : list string :=
  ["spawn_rate"; "spawn_delay"; "particle_chance"; "color_start"; "color_end";
   "gravity"; "sin_x"; "sin_y"; "particle_velocity_x"; "random_x_dir";
   "particle_velocity_y"; "random_y_dir"; "random_velocity_deviation";
   "lifetime"; "start_size"; "end_size"; "particle_type"; "spawn_type";
   "glow_size"; "random_glow"; "start_alpha"; "end_alpha"].

(** [ParticleBaseSettings.__setattr__] *)
Definition __setattr__ (self : gmap string PyValue) (key : string) (value : PyValue)
  : PyResult (gmap string PyValue) :=
  if bool_decide (key ∈ fields) then Ok (<[key := value]> self)
  else Raise AttributeError.

Definition ParticleType_str (k : ParticleType) : string :=
  match k with
  | RECT => "RECT" | CIRCLE => "CIRCLE" | LINE => "LINE" | ANIMATION => "ANIMATION"
  end.

Definition SpawnType_str (k : SpawnType) : string :=
  match k with AUTO => "AUTO" | EVENT => "EVENT" end.

(** The instance dictionary of a settings object. *)
Definition to_attrs (s : ParticleBaseSettings) : gmap string PyValue :=
  list_to_map
    [("spawn_rate", PyInt (spawn_rate s)); ("spawn_delay", PyFloat (spawn_delay s));
     ("particle_chance", PyFloat (particle_chance s));
     ("color_start", PyColor (color_start s)); ("color_end", PyColor (color_end s));
     ("gravity", PyFloat (gravity s));
     ("sin_x", PyBool (sin_x s)); ("sin_y", PyBool (sin_y s));
     ("particle_velocity_x", PyFloat (particle_velocity_x s));
     ("random_x_dir", PyBool (random_x_dir s));
     ("particle_velocity_y", PyFloat (particle_velocity_y s));
     ("random_y_dir", PyBool (random_y_dir s));
     ("random_velocity_deviation", PyFloat (random_velocity_deviation s));
     ("lifetime", PyFloat (lifetime s));
     ("start_size", PyInt (start_size s)); ("end_size", PyInt (end_size s));
     ("particle_type", PyStr (ParticleType_str (particle_type s)));
     ("spawn_type", PyStr (SpawnType_str (spawn_type s)));
     ("glow_size", PyInt (glow_size s)); ("random_glow", PyInt (random_glow s));
     ("start_alpha", PyInt (start_alpha s)); ("end_alpha", PyInt (end_alpha s))].

Definition as_int (v : PyValue) : option Z :=
  match v with PyInt n => Some n | _ => None end.

(** An [int] is accepted where a [float] is declared. *)
Definition as_float (v : PyValue) : option Q :=
  match v with PyFloat q => Some q | PyInt n => Some (inject_Z n) | _ => None end.

Definition as_bool (v : PyValue) : option bool :=
  match v with PyBool flag => Some flag | _ => None end.

Definition as_color (v : PyValue) : option Color.t :=
  match v with PyColor c => Some c | _ => None end.

Definition as_particle_type (v : PyValue) : option ParticleType :=
  match v with
  | PyStr s =>
      if String.eqb s "RECT" then Some RECT
      else if String.eqb s "CIRCLE" then Some CIRCLE
      else if String.eqb s "LINE" then Some LINE
      else if String.eqb s "ANIMATION" then Some ANIMATION
      else None
  | _ => None
  end.

Definition as_spawn_type (v : PyValue) : option SpawnType :=
  match v with
  | PyStr s =>
      if String.eqb s "AUTO" then Some AUTO
      else if String.eqb s "EVENT" then Some EVENT
      else None
  | _ => None
  end.

(** Reading an instance dictionary back at the declared types; [None]
    when an attribute is missing or violates its annotation. *)
Definition of_attrs (m : gmap string PyValue) : option ParticleBaseSettings :=
  f1 ← m !! "spawn_rate" ≫= as_int;
  f2 ← m !! "spawn_delay" ≫= as_float;
  f3 ← m !! "particle_chance" ≫= as_float;
  f4 ← m !! "color_start" ≫= as_color;
  f5 ← m !! "color_end" ≫= as_color;
  f6 ← m !! "gravity" ≫= as_float;
  f7 ← m !! "sin_x" ≫= as_bool;
  f8 ← m !! "sin_y" ≫= as_bool;
  f9 ← m !! "particle_velocity_x" ≫= as_float;
  f10 ← m !! "random_x_dir" ≫= as_bool;
  f11 ← m !! "particle_velocity_y" ≫= as_float;
  f12 ← m !! "random_y_dir" ≫= as_bool;
  f13 ← m !! "random_velocity_deviation" ≫= as_float;
  f14 ← m !! "lifetime" ≫= as_float;
  f15 ← m !! "start_size" ≫= as_int;
  f16 ← m !! "end_size" ≫= as_int;
  f17 ← m !! "particle_type" ≫= as_particle_type;
  f18 ← m !! "spawn_type" ≫= as_spawn_type;
  f19 ← m !! "glow_size" ≫= as_int;
  f20 ← m !! "random_glow" ≫= as_int;
  f21 ← m !! "start_alpha" ≫= as_int;
  f22 ← m !! "end_alpha" ≫= as_int;
  Some (mkSettings f1 f2 f3 f4 f5 f6 f7 f8 f9 f10 f11 f12 f13 f14 f15 f16
                   f17 f18 f19 f20 f21 f22).

(** ** particle_emitter.py *)

Module Particle.
Record t := mk {
  position : Vector2.t;
  start_position : Vector2.t;
  velocity : Vector2.t;
  frequency : Q;
  phase : Q;
  direction : Z;
  color : Color.t;
  time_elapsed : Q;
  lifetime : Q;
  size : Q;
  surf : option Surface;
  gsurf : option Surface;
  alpha : Q
}.

Definition set_position (v : Vector2.t) (p : t) : t :=
  mk v (start_position p) (velocity p) (frequency p) (phase p) (direction p)
     (color p) (time_elapsed p) (lifetime p) (size p) (surf p) (gsurf p) (alpha p).

Definition set_time_elapsed (v : Q) (p : t) : t :=
  mk (position p) (start_position p) (velocity p) (frequency p) (phase p)
     (direction p) (color p) v (lifetime p) (size p) (surf p) (gsurf p) (alpha p).

Definition set_color (v : Color.t) (p : t) : t :=
  mk (position p) (start_position p) (velocity p) (frequency p) (phase p)
     (direction p) v (time_elapsed p) (lifetime p) (size p) (surf p) (gsurf p)
     (alpha p).

Definition set_size (v : Q) (p : t) : t :=
  mk (position p) (start_position p) (velocity p) (frequency p) (phase p)
     (direction p) (color p) (time_elapsed p) (lifetime p) v (surf p) (gsurf p)
     (alpha p).

Definition set_alpha (v : Q) (p : t) : t :=
  mk (position p) (start_position p) (velocity p) (frequency p) (phase p)
     (direction p) (color p) (time_elapsed p) (lifetime p) (size p) (surf p)
     (gsurf p) v.

Definition set_surf (v : option Surface) (p : t) : t :=
  mk (position p) (start_position p) (velocity p) (frequency p) (phase p)
     (direction p) (color p) (time_elapsed p) (lifetime p) (size p) v (gsurf p)
     (alpha p).

Definition set_gsurf (v : option Surface) (p : t) : t :=
  mk (position p) (start_position p) (velocity p) (frequency p) (phase p)
     (direction p) (color p) (time_elapsed p) (lifetime p) (size p) (surf p) v
     (alpha p).

(** Surfaces compare by identity.  No two particles ever hold the same
    surface object (each is a fresh [copy()]), so between two distinct
    particles the fields agree only when both are [None]. *)
Definition surface_is (s1 s2 : option Surface) : bool :=
  match s1, s2 with
  | None, None => true
  | _, _ => false
  end.

(** The [__eq__] that [@dataclass] generates, between two distinct
    particle objects: the tuples of all fields are compared. *)
Definition eqb (p q : t) : bool :=
  (Vector2.eqb (position p) (position q)
   && Vector2.eqb (start_position p) (start_position q)
   && Vector2.eqb (velocity p) (velocity q)
   && Qeq_bool (frequency p) (frequency q)
   && Qeq_bool (phase p) (phase q)
   && (direction p =? direction q)%Z
   && Color.eqb (color p) (color q)
   && Qeq_bool (time_elapsed p) (time_elapsed q)
   && Qeq_bool (lifetime p) (lifetime q)
   && Qeq_bool (size p) (size q)
   && surface_is (surf p) (surf q)
   && surface_is (gsurf p) (gsurf q)
   && Qeq_bool (alpha p) (alpha q))%bool.
End Particle.

Module Emitter.
Record t := mk {
  position : Vector2.t;
  size : Vector2.t;
  dimensions : Vector2.t;
  particles : list Particle.t;
  spawn_timer : Q;
  master_clock : Q;
  time_elapsed : Q;
  blit_list : list (option Surface * Vector2.t);
  glow_blit_list : list (option Surface * Vector2.t);
  particle_count : Z;
  is_active : bool;
  p_base : ParticleBaseSettings
}.

Definition set_position (v : Vector2.t) (e : t) : t :=
  mk v (size e) (dimensions e) (particles e) (spawn_timer e) (master_clock e)
     (time_elapsed e) (blit_list e) (glow_blit_list e) (particle_count e)
     (is_active e) (p_base e).

Definition set_dimensions (v : Vector2.t) (e : t) : t :=
  mk (position e) (size e) v (particles e) (spawn_timer e) (master_clock e)
     (time_elapsed e) (blit_list e) (glow_blit_list e) (particle_count e)
     (is_active e) (p_base e).

Definition set_particles (v : list Particle.t) (e : t) : t :=
  mk (position e) (size e) (dimensions e) v (spawn_timer e) (master_clock e)
     (time_elapsed e) (blit_list e) (glow_blit_list e) (particle_count e)
     (is_active e) (p_base e).

Definition set_spawn_timer (v : Q) (e : t) : t :=
  mk (position e) (size e) (dimensions e) (particles e) v (master_clock e)
     (time_elapsed e) (blit_list e) (glow_blit_list e) (particle_count e)
     (is_active e) (p_base e).

Definition set_time_elapsed (v : Q) (e : t) : t :=
  mk (position e) (size e) (dimensions e) (particles e) (spawn_timer e)
     (master_clock e) v (blit_list e) (glow_blit_list e) (particle_count e)
     (is_active e) (p_base e).

Definition set_blit_list (v : list (option Surface * Vector2.t)) (e : t) : t :=
  mk (position e) (size e) (dimensions e) (particles e) (spawn_timer e)
     (master_clock e) (time_elapsed e) v (glow_blit_list e) (particle_count e)
     (is_active e) (p_base e).

Definition set_glow_blit_list (v : list (option Surface * Vector2.t)) (e : t) : t :=
  mk (position e) (size e) (dimensions e) (particles e) (spawn_timer e)
     (master_clock e) (time_elapsed e) (blit_list e) v (particle_count e)
     (is_active e) (p_base e).

Definition set_particle_count (v : Z) (e : t) : t :=
  mk (position e) (size e) (dimensions e) (particles e) (spawn_timer e)
     (master_clock e) (time_elapsed e) (blit_list e) (glow_blit_list e) v
     (is_active e) (p_base e).

Definition set_is_active (v : bool) (e : t) : t :=
  mk (position e) (size e) (dimensions e) (particles e) (spawn_timer e)
     (master_clock e) (time_elapsed e) (blit_list e) (glow_blit_list e)
     (particle_count e) v (p_base e).

Definition set_p_base (v : ParticleBaseSettings) (e : t) : t :=
  mk (position e) (size e) (dimensions e) (particles e) (spawn_timer e)
     (master_clock e) (time_elapsed e) (blit_list e) (glow_blit_list e)
     (particle_count e) (is_active e) v.
End Emitter.

(** *** The shape cache (class attributes of [ParticleEmitter]) *)

(** [range(1, 11)] *)
Definition range_1_11 : list Z := Z.of_nat <$> seq 1 10.

Definition _SURFACES_RECT : list Surface :=
  (fun i => Surface_fill white (new_Surface i i)) <$> range_1_11.

Definition _SURFACES_CIRCLE : list Surface :=
  (fun i => draw_circle white i i i (new_Surface (i * 2) (i * 2))) <$> range_1_11.

Definition _get_rect_surface (size : Z) : PyResult Surface :=
  if ((0 <=? size)%Z && (size <=? 10)%Z)%bool then
    s ← py_getitem _SURFACES_RECT (size - 1); Ok (Surface_copy s)
  else Raise ValueError.

Definition _get_circle_surface (radius : Z) : PyResult Surface :=
  if ((1 <=? radius)%Z && (radius <=? 10)%Z)%bool then
    s ← py_getitem _SURFACES_CIRCLE (radius - 1); Ok (Surface_copy s)
  else Raise ValueError.

(** *** interpolate_color *)

Definition interpolate_color (color1 color2 : Color.t) (t : Q) : PyResult Color.t :=
  pygame_Color
    (py_int (inject_Z (Color.r color1)
             + (inject_Z (Color.r color2) - inject_Z (Color.r color1)) * t)%Q)
    (py_int (inject_Z (Color.g color1)
             + (inject_Z (Color.g color2) - inject_Z (Color.g color1)) * t)%Q)
    (py_int (inject_Z (Color.b color1)
             + (inject_Z (Color.b color2) - inject_Z (Color.b color1)) * t)%Q)
    (py_int (inject_Z (Color.a color1)
             + (inject_Z (Color.a color2) - inject_Z (Color.a color1)) * t)%Q).

(** *** apply_config *)

(** The loop over [fields(self.p_base)]: an attribute the config object
    has is copied through [__setattr__]. *)
Fixpoint copy_fields (names : list string) (config p_base : gmap string PyValue)
  : PyResult (gmap string PyValue) :=
  match names with
  | [] => Ok p_base
  | f :: rest =>
      match config !! f with
      | Some v => p_base ← __setattr__ p_base f v; copy_fields rest config p_base
      | None => copy_fields rest config p_base
      end
  end.

Section WithExternals.
Context `{Externals}.

(** [if isinstance(self.p_base.<name>, str): self.p_base.<name> = Color(...)] *)
Definition resolve_color (name : string) (p_base : gmap string PyValue)
  : PyResult (gmap string PyValue) :=
  match p_base !! name with
  | None => Raise AttributeError
  | Some (PyStr s) =>
      match Color_of_str s with
      | Some c => __setattr__ p_base name (PyColor c)
      | None => Raise ValueError
      end
  | Some _ => Ok p_base
  end.

(** The body of [ParticleEmitter.apply_config]: what it does to the
    attribute dictionary of [self.p_base], given the attribute
    dictionary of the config object. *)
Definition apply_config (config p_base : gmap string PyValue)
  : PyResult (gmap string PyValue) :=
  p_base ← copy_fields fields config p_base;
  p_base ← resolve_color "color_start" p_base;
  resolve_color "color_end" p_base.

(** [apply_config] as a step of the emitter.  The simulation reads the
    settings at the types the dataclass declares; a config that leaves
    an attribute ill-typed is reported here. *)
Definition ParticleEmitter_apply_config (config : gmap string PyValue) (self : Emitter.t)
  : PyResult Emitter.t :=
  attrs ← apply_config config (to_attrs (Emitter.p_base self));
  match of_attrs attrs with
  | Some s => Ok (Emitter.set_p_base s self)
  | None => Raise TypeError
  end.

(** *** Small methods *)

Definition set_room_dimensions (coords : Vector2.t) (self : Emitter.t) : Emitter.t :=
  Emitter.set_dimensions coords self.

Definition set_state (state : bool) (self : Emitter.t) : Emitter.t :=
  Emitter.set_is_active state self.

Definition update_position (position : Vector2.t) (self : Emitter.t) : Emitter.t :=
  Emitter.set_position position self.

(** The [room_rect] property. *)
Definition room_rect (self : Emitter.t) : PyResult Rect :=
  let pos := Emitter.position self in
  let dim := Emitter.dimensions self in
  qx ← py_floordiv (Vector2.x pos) (Vector2.x dim);
  qy ← py_floordiv (Vector2.y pos) (Vector2.y dim);
  Ok (pygame_Rect (qx * Vector2.x dim)%Q (qy * Vector2.y dim)%Q
                  (Vector2.x dim) (Vector2.y dim)).

(** *** Spawning *)

Definition __spawn_particle (self : Emitter.t) (tape : Tape)
  : PyResult (Emitter.t * Tape) :=
  let cfg := Emitter.p_base self in
  let '(rnd_x, tape) := random_uniform 0 (Vector2.x (Emitter.size self)) tape in
  let '(rnd_y, tape) := random_uniform 0 (Vector2.y (Emitter.size self)) tape in
  let pos_x := (Vector2.x (Emitter.position self) + rnd_x)%Q in
  let pos_y := (Vector2.y (Emitter.position self) + rnd_y)%Q in
  let '(frequency, tape) := random_uniform (3 # 10) (6 # 10) tape in
  let '(phase, tape) := random_uniform (6 # 10) (2 * math_pi) tape in
  let random_lifetime_deviation := 0%Q in
  let '(rnd_x_dir, tape) :=
    if random_x_dir cfg then random_choice (-1)%Z 1%Z tape else (1%Z, tape) in
  let '(rnd_y_dir, tape) :=
    if random_y_dir cfg then random_choice (-1)%Z 1%Z tape else (1%Z, tape) in
  let '(rnd_x_deviation, tape) :=
    random_uniform 0 (random_velocity_deviation cfg) tape in
  let v := Vector2.mk
             (particle_velocity_x cfg * inject_Z rnd_x_dir + rnd_x_deviation)%Q
             (particle_velocity_y cfg * inject_Z rnd_y_dir)%Q in
  psurf ← match particle_type cfg with
          | RECT =>
              s ← _get_rect_surface (start_size cfg);
              Ok (Some (Surface_fill (color_start cfg) s))
          | CIRCLE =>
              s ← _get_circle_surface (start_size cfg);
              Ok (Some (Surface_fill (color_start cfg) s))
          | ANIMATION => Ok None
          | LINE => Ok None
          end;
  let particle := {|
    Particle.position := Vector2.mk pos_x pos_y;
    Particle.start_position := Vector2.mk pos_x pos_y;
    Particle.velocity := v;
    Particle.frequency := frequency;
    Particle.phase := phase;
    Particle.direction := 1;
    Particle.color := color_start cfg;
    Particle.time_elapsed := 0;
    Particle.lifetime := (lifetime cfg - random_lifetime_deviation)%Q;
    Particle.size := inject_Z (start_size cfg);
    Particle.surf := psurf;
    Particle.alpha := inject_Z (start_alpha cfg);
    Particle.gsurf := None
  |} in
  let self := Emitter.set_particles (Emitter.particles self ++ [particle]) self in
  Ok (Emitter.set_particle_count (Emitter.particle_count self + 1)%Z self, tape).

(** [for _ in range(n): self.__spawn_particle()] *)
Fixpoint spawn_loop (n : nat) (self : Emitter.t) (tape : Tape)
  : PyResult (Emitter.t * Tape) :=
  match n with
  | O => Ok (self, tape)
  | S n =>
      '(self, tape) ← __spawn_particle self tape;
      spawn_loop n self tape
  end.

Definition spawn_particle_group (amount : Z) (self : Emitter.t) (tape : Tape)
  : PyResult (Emitter.t * Tape) :=
  spawn_loop (Z.to_nat amount) self tape.

Definition __spawn_particle_rate (spawn_rate : Z) (self : Emitter.t) (tape : Tape)
  : PyResult (Emitter.t * Tape) :=
  spawn_loop (Z.to_nat spawn_rate) self tape.

Definition __update_auto (self : Emitter.t) (tape : Tape)
  : PyResult (Emitter.t * Tape) :=
  let cfg := Emitter.p_base self in
  if Qle_bool (spawn_delay cfg) (Emitter.spawn_timer self) then
    let '(n, tape) := random_randint 0 100 tape in
    if Qlt_bool (inject_Z n) (particle_chance cfg) then
      '(self, tape) ← __spawn_particle_rate (spawn_rate cfg) self tape;
      Ok (Emitter.set_spawn_timer 0 self, tape)
    else Ok (self, tape)
  else Ok (self, tape).

Definition __update_spawn (self : Emitter.t) (tape : Tape)
  : PyResult (Emitter.t * Tape) :=
  Ok (self, tape).

(** *** The per-frame update *)

(** [[p for p in self.particles if self.room_rect.collidepoint(p.position)]];
    the property is evaluated once per particle. *)
Fixpoint room_filter (self : Emitter.t) (l : list Particle.t)
  : PyResult (list Particle.t) :=
  match l with
  | [] => Ok []
  | p :: rest =>
      rc ← room_rect self;
      rest ← room_filter self rest;
      Ok (if collidepoint rc (Particle.position p) then p :: rest else rest)
  end.

Definition integrate_position (self : Emitter.t) (dt : Q) (particle : Particle.t)
  : Particle.t :=
  let cfg := Emitter.p_base self in
  let pos := Particle.position particle in
  let wave :=
    (inject_Z (Particle.direction particle)
     * (math_sin (Emitter.time_elapsed self * Particle.frequency particle
                  + Particle.phase particle) * 1 / 8))%Q in
  let px := if sin_x cfg then (Vector2.x pos + wave)%Q
            else (Vector2.x pos + Vector2.x (Particle.velocity particle) * dt)%Q in
  let py := if sin_y cfg then (Vector2.y pos + wave)%Q
            else (Vector2.y pos + Vector2.y (Particle.velocity particle) * dt)%Q in
  Particle.set_position (Vector2.mk px py) particle.

Definition min_dt : Q := (1 # 240)%Q.

Definition advance_age (dt : Q) (particle : Particle.t) : Particle.t :=
  let _dt := py_max dt min_dt in
  Particle.set_time_elapsed (Particle.time_elapsed particle + _dt)%Q particle.

(** [list.remove(particle)] deletes the first element that is the
    particle or compares equal to it.  The particle itself sits at index
    [i], so the scan stops there at the latest; it stops earlier at an
    element that [__eq__] cannot tell from it. *)
Definition remove_index (l : list Particle.t) (i : nat) (particle : Particle.t) : nat :=
  match list_find (fun q => Particle.eqb q particle = true) (take i l) with
  | Some (j, _) => j
  | None => i
  end.

(** The list after [remove], and where the particle now sits in it
    ([None] when it was the element deleted). *)
Definition list_remove (l : list Particle.t) (i : nat) (particle : Particle.t)
  : list Particle.t * option nat :=
  let j := remove_index l i particle in
  (delete j l, if (j =? i)%nat then None else Some (i - 1)%nat).

(** Lines 298-301: the easing factor and the three re-lerps. *)
Definition interpolate_attributes (cfg : ParticleBaseSettings) (particle : Particle.t)
  : PyResult Particle.t :=
  q ← py_truediv (Particle.time_elapsed particle) (Particle.lifetime particle);
  let t := (q * q)%Q in
  c ← interpolate_color (Particle.color particle) (color_end cfg) t;
  let particle := Particle.set_color c particle in
  let particle :=
    Particle.set_size (lerp (Particle.size particle) (inject_Z (end_size cfg)) t)
                      particle in
  Ok (Particle.set_alpha
        (lerp (Particle.alpha particle) (inject_Z (end_alpha cfg)) t) particle).

(** The shape and glow of one kind ([get] is the cache getter). *)
Definition cached_shapes (get : Z -> PyResult Surface) (cfg : ParticleBaseSettings)
    (particle : Particle.t) (tape : Tape)
  : PyResult (option Surface * option Surface * Tape) :=
  psurf ← get (clamp (py_int (Particle.size particle)) 1 10);
  let psurf := Surface_fill (Particle.color particle) psurf in
  let psurf := Surface_set_alpha (Particle.alpha particle) psurf in
  if (0 <? glow_size cfg)%Z then
    let '(jitter, tape) :=
      random_choice (random_glow cfg) (- random_glow cfg)%Z tape in
    gsurf ← get (clamp (py_int (Particle.size particle + inject_Z (glow_size cfg)
                                 + inject_Z jitter)%Q) 1 10);
    let dim := (Particle.alpha particle / 255)%Q in
    let c := Particle.color particle in
    gsurf ← Surface_fill_rgb (py_int (inject_Z (Color.r c) * dim)%Q)
                              (py_int (inject_Z (Color.g c) * dim)%Q)
                              (py_int (inject_Z (Color.b c) * dim)%Q) gsurf;
    Ok (Some psurf, Some gsurf, tape)
  else Ok (Some psurf, None, tape).

(** Lines 303-336: the [match] on the particle kind. *)
Definition resync_shape (cfg : ParticleBaseSettings) (particle : Particle.t)
    (tape : Tape) : PyResult (option Surface * option Surface * Tape) :=
  match particle_type cfg with
  | RECT => cached_shapes _get_rect_surface cfg particle tape
  | CIRCLE => cached_shapes _get_circle_surface cfg particle tape
  | ANIMATION => Ok (None, None, tape)
  | LINE => Ok (None, None, tape)
  end.

(** One pass through the body of [for particle in self.particles], for
    the particle the iterator found at index [i].  The particle is
    mutated in place, so the list shows each change at once. *)
Definition loop_body (dt : Q) (i : nat) (particle : Particle.t)
    (self : Emitter.t) (tape : Tape) : PyResult (Emitter.t * Tape) :=
  let cfg := Emitter.p_base self in
  let particle := integrate_position self dt particle in
  let particle := advance_age dt particle in
  let l := <[i := particle]> (Emitter.particles self) in
  let '(l, slot) :=
    if Qle_bool (Particle.lifetime particle) (Particle.time_elapsed particle)
    then list_remove l i particle
    else (l, Some i) in
  particle ← interpolate_attributes cfg particle;
  '(psurf, gsurf, tape) ← resync_shape cfg particle tape;
  let particle := Particle.set_surf psurf particle in
  let particle := Particle.set_gsurf gsurf particle in
  let l := match slot with
           | Some k => <[k := particle]> l
           | None => l
           end in
  let self := Emitter.set_particles l self in
  let self :=
    Emitter.set_blit_list
      (Emitter.blit_list self ++ [(psurf, Particle.position particle)]) self in
  Ok (self, tape).

(** The list iterator: it holds an index into the list object, reads
    the element there while the index is in range, and moves on by one,
    whatever happened to the list in between. *)
Fixpoint particle_loop (fuel : nat) (dt : Q) (i : nat) (self : Emitter.t)
    (tape : Tape) : PyResult (Emitter.t * Tape) :=
  match fuel with
  | O => Ok (self, tape)
  | S fuel =>
      match Emitter.particles self !! i with
      | None => Ok (self, tape)
      | Some particle =>
          '(self, tape) ← loop_body dt i particle self tape;
          particle_loop fuel dt (S i) self tape
      end
  end.

(** The list never grows inside the loop, so its length at entry
    bounds the number of passes. *)
Definition __update_particles (dt : Q) (self : Emitter.t) (tape : Tape)
  : PyResult (Emitter.t * Tape) :=
  l ← room_filter self (Emitter.particles self);
  let self := Emitter.set_particles l self in
  particle_loop (length l) dt 0 self tape.

Definition update (dt : Q) (self : Emitter.t) (tape : Tape)
  : PyResult (Emitter.t * Tape) :=
  let self := Emitter.set_time_elapsed (Emitter.time_elapsed self + dt)%Q self in
  let self := Emitter.set_spawn_timer (Emitter.spawn_timer self + dt)%Q self in
  let self := Emitter.set_blit_list [] self in
  let self := Emitter.set_glow_blit_list [] self in
  '(self, tape) ←
    (if Emitter.is_active self then
       match spawn_type (Emitter.p_base self) with
       | AUTO => __update_auto self tape
       | EVENT => __update_spawn self tape
       end
     else Ok (self, tape));
  __update_particles dt self tape.

(** *** render *)

Definition offset_vector (offset : Z * Z) : Vector2.t :=
  Vector2.mk (inject_Z (fst offset)) (inject_Z (snd offset)).

(** The [for p in self.particles] of the line kind. *)
Fixpoint render_lines (offset : Z * Z) (l : list Particle.t)
  : PyResult (list DrawCall) :=
  match l with
  | [] => Ok []
  | p :: rest =>
      let vel := Particle.velocity p in
      let velocity_length :=
        math_sqrt (Vector2.x vel * Vector2.x vel + Vector2.y vel * Vector2.y vel)%Q in
      direction_x ← py_truediv (Vector2.x vel) velocity_length;
      direction_y ← py_truediv (Vector2.y vel) velocity_length;
      let end_x := (Vector2.x (Particle.position p) + direction_x * Particle.size p)%Q in
      let end_y := (Vector2.y (Particle.position p) + direction_y * Particle.size p)%Q in
      let end_p := Vector2.mk end_x end_y in
      let call := aaline (Particle.color p)
                         (Vector2.sub (Particle.position p) (offset_vector offset))
                         (Vector2.sub end_p (offset_vector offset)) in
      calls ← render_lines offset rest;
      Ok (call :: calls)
  end.

(** The closing [for p in self.particles: if p.gsurf: ...]. *)
Definition render_glow (offset : Z * Z) (l : list Particle.t) : list DrawCall :=
  omap (fun p =>
          s ← Particle.gsurf p;
          Some (blit_add s (Vector2.sub (Particle.position p) (offset_vector offset))))
       l.

Definition render (offset : Z * Z) (self : Emitter.t) : PyResult (list DrawCall) :=
  calls ← match particle_type (Emitter.p_base self) with
          | LINE => render_lines offset (Emitter.particles self)
          | _ => Ok [fblits (Emitter.blit_list self)]
          end;
  Ok (calls ++ render_glow offset (Emitter.particles self)).

(** *** Construction *)

(** [from_kwargs]: the keyword arguments that name a declared field,
    over the defaults of [ParticleBaseSettings()]. *)
Definition from_kwargs (kwargs : gmap string PyValue) : gmap string PyValue :=
  filter (fun kv => kv.1 ∈ fields) kwargs ∪ to_attrs default_settings.

(** [ParticleEmitter.__init__]; [position] and [size] default to
    [(0, 0)]. *)
Definition __init__ (position size : option Vector2.t) (kwargs : gmap string PyValue)
  : PyResult Emitter.t :=
  ParticleEmitter_apply_config (from_kwargs kwargs) {|
    Emitter.position := default (Vector2.mk 0 0) position;
    Emitter.size := default (Vector2.mk 0 0) size;
    Emitter.dimensions := Vector2.mk 64 64;
    Emitter.particles := [];
    Emitter.spawn_timer := 0;
    Emitter.master_clock := 0;
    Emitter.time_elapsed := 0;
    Emitter.blit_list := [];
    Emitter.glow_blit_list := [];
    Emitter.particle_count := 0;
    Emitter.is_active := true;
    Emitter.p_base := default_settings
  |}.

End WithExternals.

(** ** A reference instance of the externals, and test fixtures

    [sqrt_approx] is two Heron steps from the arithmetic-mean bound; it
    is exact on the squares the fixtures use and, like [math.sqrt],
    vanishes only at zero.  [Color_of_hex] reads pygame's
    [#rrggbb] and [#rrggbbaa] colour codes. *)

Definition heron (v guess : Q) : Q := ((guess + v / guess) / 2)%Q.

Definition sqrt_approx (v : Q) : Q :=
  if Qle_bool v 0 then 0%Q
  else Qred (heron v (heron v ((v + 1) / 2)%Q)).

Definition sin_approx (v : Q) : Q := Qred (v - v * v * v / 6)%Q.

Definition hex_digit (c : ascii) : option Z :=
  let n := Z.of_nat (nat_of_ascii c) in
  if ((48 <=? n)%Z && (n <=? 57)%Z)%bool then Some (n - 48)%Z
  else if ((97 <=? n)%Z && (n <=? 102)%Z)%bool then Some (n - 87)%Z
  else if ((65 <=? n)%Z && (n <=? 70)%Z)%bool then Some (n - 55)%Z
  else None.

Definition hex_byte (hi lo : ascii) : option Z :=
  h ← hex_digit hi; l ← hex_digit lo; Some (16 * h + l)%Z.

Definition Color_of_hex (s : string) : option Color.t :=
  match s with
  | String "#" (String r1 (String r2 (String g1 (String g2
      (String b1 (String b2 rest)))))) =>
      cr ← hex_byte r1 r2;
      cg ← hex_byte g1 g2;
      cb ← hex_byte b1 b2;
      match rest with
      | EmptyString => Some (Color.mk cr cg cb 255)
      | String a1 (String a2 EmptyString) =>
          ca ← hex_byte a1 a2; Some (Color.mk cr cg cb ca)
      | _ => None
      end
  | _ => None
  end.

Definition reference_externals : Externals := {|
  math_sin := sin_approx;
  math_sqrt := sqrt_approx;
  Color_of_str := Color_of_hex
|}.

(** A particle at [(px, 1)] moving right at unit speed. *)
Definition sample_particle (px age life : Q) : Particle.t := {|
  Particle.position := Vector2.mk px 1;
  Particle.start_position := Vector2.mk px 1;
  Particle.velocity := Vector2.mk 1 0;
  Particle.frequency := (1 # 2)%Q;
  Particle.phase := 1;
  Particle.direction := 1;
  Particle.color := white;
  Particle.time_elapsed := age;
  Particle.lifetime := life;
  Particle.size := 1;
  Particle.surf := None;
  Particle.gsurf := None;
  Particle.alpha := 255
|}.

(** An emitter at the origin with a 64x64 room. *)
Definition sample_emitter (active : bool) (extent : Vector2.t)
    (l : list Particle.t) (cfg : ParticleBaseSettings) : Emitter.t := {|
  Emitter.position := Vector2.mk 0 0;
  Emitter.size := extent;
  Emitter.dimensions := Vector2.mk 64 64;
  Emitter.particles := l;
  Emitter.spawn_timer := 0;
  Emitter.master_clock := 0;
  Emitter.time_elapsed := 0;
  Emitter.blit_list := [];
  Emitter.glow_blit_list := [];
  Emitter.particle_count := 0;
  Emitter.is_active := active;
  Emitter.p_base := cfg
|}.

Definition with_kind (k : ParticleType) (s : ParticleBaseSettings)
  : ParticleBaseSettings :=
  mkSettings (spawn_rate s) (spawn_delay s) (particle_chance s) (color_start s)
    (color_end s) (gravity s) (sin_x s) (sin_y s) (particle_velocity_x s)
    (random_x_dir s) (particle_velocity_y s) (random_y_dir s)
    (random_velocity_deviation s) (lifetime s) (start_size s) (end_size s)
    k (spawn_type s) (glow_size s) (random_glow s) (start_alpha s) (end_alpha s).


(** The scenario of the spec's section 8: [spawnDelay = 0.1],
    [particleChance = 100], [spawnRate = 3]. *)
Definition auto_scenario : ParticleBaseSettings :=
  mkSettings 3 (1 # 10)%Q 100 white white (981 # 1000)%Q false false 0 false 0
    false 0 1 1 1 RECT AUTO 0 0 255 255.

(** ** Vocabulary of the statements *)

(** The two attributes [apply_config] passes through [Color(...)]. *)
Definition color_fields : list string := ["color_start"; "color_end"].

(** What a config attribute looks like once applied: a string under a
    colour field has been parsed, everything else is stored as it is. *)
Definition applied_value `{Externals} (f : string) (v : PyValue) : option PyValue :=
  match v with
  | PyStr s => if bool_decide (f ∈ color_fields) then PyColor <$> Color_of_str s
               else Some v
  | _ => Some v
  end.

(** What the config object contributes to field [f]: its own attribute
    when it has one, the emitter's current value otherwise. *)
Definition incoming (config p_base : gmap string PyValue) (f : string)
  : option PyValue :=
  match config !! f with
  | Some v => Some v
  | None => p_base !! f
  end.

(** A config object with a colour code, a plain field and an attribute
    the schema does not know. *)
Definition sample_config : gmap string PyValue :=
  list_to_map [("color_start", PyStr "#be4a2f"); ("lifetime", PyInt 5);
               ("wind", PyFloat (1 # 2)%Q)].

(** The particle as the loop body has it when it reaches the lifetime
    test: moved and aged, nothing else touched. *)
Definition aged `{Externals} (self : Emitter.t) (dt : Q) (p : Particle.t)
  : Particle.t :=
  advance_age dt (integrate_position self dt p).

(** Whether this frame takes the particle to the end of its life. *)
Definition expires (dt : Q) (p : Particle.t) : bool :=
  Qle_bool (Particle.lifetime p) (Particle.time_elapsed p + py_max dt min_dt)%Q.

(** The particle list after one pass of the body: [old] is the particle
    when the lifetime test runs, [new] what the rest of the body makes
    of it. *)
Definition settle (l : list Particle.t) (i : nat) (old new : Particle.t)
  : list Particle.t :=
  let l := <[i := old]> l in
  let '(l, slot) :=
    if Qle_bool (Particle.lifetime old) (Particle.time_elapsed old)
    then list_remove l i old
    else (l, Some i) in
  match slot with
  | Some k => <[k := new]> l
  | None => l
  end.

(** Two particles that agree on everything fixed at spawn time.  Only
    such a pair can ever compare equal under [Particle.eqb]. *)
Definition spawn_twins (p q : Particle.t) : bool :=
  (Vector2.eqb (Particle.start_position p) (Particle.start_position q)
   && Vector2.eqb (Particle.velocity p) (Particle.velocity q)
   && Qeq_bool (Particle.frequency p) (Particle.frequency q)
   && Qeq_bool (Particle.phase p) (Particle.phase q)
   && (Particle.direction p =? Particle.direction q)%Z
   && Qeq_bool (Particle.lifetime p) (Particle.lifetime q))%bool.

(** No particle of [l] has a twin later in [l]. *)
Fixpoint no_twins (l : list Particle.t) : bool :=
  match l with
  | [] => true
  | p :: rest => forallb (fun q => negb (spawn_twins p q)) rest && no_twins rest
  end.

(** The emitter with extra particles in front of its list. *)
Definition prepend (pre : list Particle.t) (self : Emitter.t) : Emitter.t :=
  Emitter.set_particles (pre ++ Emitter.particles self) self.

Definition lift_result (f : Emitter.t -> Emitter.t)
    (res : PyResult (Emitter.t * Tape)) : PyResult (Emitter.t * Tape) :=
  match res with
  | Ok (self, tape) => Ok (f self, tape)
  | Raise e => Raise e
  end.

(** One colour channel of [interpolate_color]. *)
Definition lerp_channel (c e : Z) (t : Q) : Z :=
  py_int (inject_Z c + (inject_Z e - inject_Z c) * t)%Q.


(** The emitter once [spawned] has been appended by the spawn loop. *)
Definition after_spawn (self : Emitter.t) (spawned : list Particle.t) : Emitter.t :=
  Emitter.set_particle_count
    (Emitter.particle_count self + Z.of_nat (length spawned))%Z
    (Emitter.set_particles (Emitter.particles self ++ spawned) self).

(** A particle that does not move: both velocity components are zero. *)
Definition zero_velocity (p : Particle.t) : Prop :=
  (Vector2.x (Particle.velocity p) == 0)%Q ∧ (Vector2.y (Particle.velocity p) == 0)%Q.

(** [math.sqrt(p.velocity.x ** 2 + p.velocity.y ** 2)] *)
Definition velocity_length `{Externals} (p : Particle.t) : Q :=
  let vel := Particle.velocity p in
  math_sqrt (Vector2.x vel * Vector2.x vel + Vector2.y vel * Vector2.y vel)%Q.


(** ** main.py *)

(** The emitter as [main.py] sets it up. *)
Definition main_emitter `{Externals} : PyResult Emitter.t :=
  emitter ← __init__ (Some (Vector2.mk 799 0)) (Some (Vector2.mk 4 600)) ∅;
  emitter ← ParticleEmitter_apply_config (to_attrs ExampleSettings) emitter;
  Ok (set_room_dimensions (Vector2.mk 800 600) emitter).

(** One pass of the [while running] loop, for the frame time the clock
    gave: [update], then [render] with the default offset. *)
Definition main_frame `{Externals} (dt : Q) (emitter : Emitter.t) (tape : Tape)
  : PyResult (Emitter.t * Tape * list DrawCall) :=
  '(emitter, tape) ← update dt emitter tape;
  calls ← render (0, 0)%Z emitter;
  Ok (emitter, tape, calls).

(** The loop over the frame times of a run. *)
Fixpoint main_loop `{Externals} (dts : list Q) (emitter : Emitter.t) (tape : Tape)
  : PyResult (Emitter.t * Tape) :=
  match dts with
  | [] => Ok (emitter, tape)
  | dt :: dts =>
      '(emitter, tape, _) ← main_frame dt emitter tape;
      main_loop dts emitter tape
  end.

(** ** Vocabulary of the further properties *)

(** A colour as [pygame.Color] can hold it. *)
Definition valid_color (c : Color.t) : Prop :=
  (0 <= Color.r c <= 255)%Z ∧ (0 <= Color.g c <= 255)%Z
  ∧ (0 <= Color.b c <= 255)%Z ∧ (0 <= Color.a c <= 255)%Z.

(** Everything about a particle that is fixed when it is spawned. *)
Definition spawn_constants (p : Particle.t)
  : Vector2.t * Vector2.t * Q * Q * Z * Q :=
  (Particle.start_position p, Particle.velocity p, Particle.frequency p,
   Particle.phase p, Particle.direction p, Particle.lifetime p).

(** Whether the shape cache has the shape a spawn asks for. *)
Definition shape_available (cfg : ParticleBaseSettings) : bool :=
  match particle_type cfg with
  | RECT => ((0 <=? start_size cfg)%Z && (start_size cfg <=? 10)%Z)%bool
  | CIRCLE => ((1 <=? start_size cfg)%Z && (start_size cfg <=? 10)%Z)%bool
  | LINE | ANIMATION => true
  end.

(** A particle that has not reached its lifetime. *)
Definition young (p : Particle.t) : Prop :=
  (Particle.time_elapsed p < Particle.lifetime p)%Q.

(** The emitter after the four assignments that open [update]. *)
Definition begin_frame (dt : Q) (self : Emitter.t) : Emitter.t :=
  Emitter.set_glow_blit_list []
    (Emitter.set_blit_list []
       (Emitter.set_spawn_timer (Emitter.spawn_timer self + dt)%Q
          (Emitter.set_time_elapsed (Emitter.time_elapsed self + dt)%Q self))).

(** What no update changes about a particle whose colour already sits
    at the end of the ramp: the spawn-time constants and the colour. *)
Definition profile (p : Particle.t)
  : Vector2.t * Vector2.t * Q * Q * Z * Q * Color.t :=
  (spawn_constants p, Particle.color p).

(** A particle the loop body can always process when no shape is looked
    up: its lifetime is not zero and its colour is the end colour. *)
Definition steady (cfg : ParticleBaseSettings) (p : Particle.t) : Prop :=
  Particle.color p = color_end cfg ∧ ¬ (Particle.lifetime p == 0)%Q.

(** What [__spawn_particle] gives every particle, whatever is drawn. *)
Definition born (cfg : ParticleBaseSettings) (p : Particle.t) : Prop :=
  Particle.color p = color_start cfg
  ∧ (Particle.lifetime p == lifetime cfg)%Q
  ∧ (random_x_dir cfg = false → (0 <= random_velocity_deviation cfg)%Q →
     (particle_velocity_x cfg <= Vector2.x (Particle.velocity p))%Q
     ∧ (Vector2.x (Particle.velocity p)
        <= particle_velocity_x cfg + random_velocity_deviation cfg)%Q).

(** A particle that drifts to the left. *)
Definition moving_left (p : Particle.t) : Prop :=
  (Vector2.x (Particle.velocity p) < 0)%Q.

(** What holds of the emitter of [main.py] before and after every
    frame. *)
Definition main_invariant (emitter : Emitter.t) : Prop :=
  Emitter.p_base emitter = ExampleSettings
  ∧ Emitter.dimensions emitter = Vector2.mk 800 600
  ∧ Forall (λ p, steady ExampleSettings p ∧ moving_left p)
           (Emitter.particles emitter).

(** The emitter [__init__] leaves behind, for the settings its keyword
    arguments come to. *)
Definition fresh_emitter (position size : option Vector2.t)
    (s : ParticleBaseSettings) : Emitter.t := {|
  Emitter.position := default (Vector2.mk 0 0) position;
  Emitter.size := default (Vector2.mk 0 0) size;
  Emitter.dimensions := Vector2.mk 64 64;
  Emitter.particles := [];
  Emitter.spawn_timer := 0;
  Emitter.master_clock := 0;
  Emitter.time_elapsed := 0;
  Emitter.blit_list := [];
  Emitter.glow_blit_list := [];
  Emitter.particle_count := 0;
  Emitter.is_active := true;
  Emitter.p_base := s
|}.

(** * Theorems *)

(** ** Shape cache *)

Lemma _get_circle_surface_range (radius : Z) :
  _get_circle_surface radius =
    if bool_decide (1 <= radius <= 10)%Z
    then Ok (draw_circle white radius radius radius
               (new_Surface (radius * 2) (radius * 2)))
    else Raise ValueError.
Proof.
  unfold _get_circle_surface.
  case_bool_decide as Hr.
  - assert (Hc : (radius = 1 ∨ radius = 2 ∨ radius = 3 ∨ radius = 4 ∨ radius = 5 ∨ radius = 6
                 ∨ radius = 7 ∨ radius = 8 ∨ radius = 9 ∨ radius = 10)%Z) by lia.
    repeat (destruct Hc as [-> | Hc]; [reflexivity |]). by subst.
  - destruct (1 <=? radius)%Z eqn:E1; destruct (radius <=? 10)%Z eqn:E2;
      simpl; try reflexivity. lia.
Qed.

Lemma _get_rect_surface_range (size : Z) :
  size ≠ 0%Z →
  _get_rect_surface size =
    if bool_decide (1 <= size <= 10)%Z
    then Ok (Surface_fill white (new_Surface size size))
    else Raise ValueError.
Proof.
  intros Hnz. unfold _get_rect_surface.
  case_bool_decide as Hr.
  - assert (Hc : (size = 1 ∨ size = 2 ∨ size = 3 ∨ size = 4 ∨ size = 5 ∨ size = 6
                 ∨ size = 7 ∨ size = 8 ∨ size = 9 ∨ size = 10)%Z) by lia.
    repeat (destruct Hc as [-> | Hc]; [reflexivity |]). by subst.
  - destruct (0 <=? size)%Z eqn:E1; destruct (size <=? 10)%Z eqn:E2;
      simpl; try reflexivity. lia.
Qed.

(** C1.  The circle getter rejects 0 as its docstring says, but the
    rectangle getter's guard reads [0 <= size]: size 0 passes it, the
    index [-1] wraps to the end of the table, and the call returns the
    10x10 image instead of raising. *)
Theorem get_rect_surface_zero_not_rejected :
  _get_rect_surface 0 = Ok (Surface_fill white (new_Surface 10 10))
  ∧ _get_circle_surface 0 = Raise ValueError
  ∧ _get_rect_surface 11 = Raise ValueError
  ∧ _get_circle_surface 11 = Raise ValueError.
Proof. repeat split; reflexivity. Qed.

(** ** apply_config *)

Lemma setattr_declared (self : gmap string PyValue) key v :
  key ∈ fields → __setattr__ self key v = Ok (<[key := v]> self).
Proof. intros Hk. unfold __setattr__. by rewrite bool_decide_eq_true_2. Qed.

Lemma setattr_undeclared (self : gmap string PyValue) key v :
  key ∉ fields → __setattr__ self key v = Raise AttributeError.
Proof. intros Hk. unfold __setattr__. by rewrite bool_decide_eq_false_2. Qed.

Lemma copy_fields_spec names (config p_base : gmap string PyValue) :
  Forall (λ f, f ∈ fields) names →
  ∃ p_base', copy_fields names config p_base = Ok p_base'
    ∧ ∀ f, p_base' !! f =
        if bool_decide (f ∈ names)
        then match config !! f with Some v => Some v | None => p_base !! f end
        else p_base !! f.
Proof.
  intros Hnames. revert p_base.
  induction Hnames as [| f0 rest Hf0 _ IH]; intros p_base.
  - exists p_base. split; [reflexivity |]. intros f.
    rewrite bool_decide_eq_false_2; [reflexivity | apply not_elem_of_nil].
  - simpl. destruct (config !! f0) as [v |] eqn:Hcfg.
    + rewrite (setattr_declared _ _ _ Hf0). simpl.
      destruct (IH (<[f0 := v]> p_base)) as (p' & Hrun & Hlook).
      exists p'. split; [exact Hrun |]. intros f. rewrite Hlook.
      destruct (decide (f = f0)) as [-> | Hne].
      * rewrite Hcfg, lookup_insert_eq.
        rewrite (bool_decide_eq_true_2 (f0 ∈ f0 :: rest)); [| apply list_elem_of_here].
        by case_bool_decide.
      * rewrite lookup_insert_ne by done.
        case_bool_decide as Hin.
        -- rewrite bool_decide_eq_true_2; [done | by apply list_elem_of_further].
        -- rewrite bool_decide_eq_false_2; [done |].
           intros [-> | Hin']%elem_of_cons; done.
    + destruct (IH p_base) as (p' & Hrun & Hlook).
      exists p'. split; [exact Hrun |]. intros f. rewrite Hlook.
      destruct (decide (f = f0)) as [-> | Hne].
      * rewrite Hcfg.
        rewrite (bool_decide_eq_true_2 (f0 ∈ f0 :: rest)); [| apply list_elem_of_here].
        by case_bool_decide.
      * case_bool_decide as Hin.
        -- rewrite bool_decide_eq_true_2; [done | by apply list_elem_of_further].
        -- rewrite bool_decide_eq_false_2; [done |].
           intros [-> | Hin']%elem_of_cons; done.
Qed.

Lemma fields_declared : Forall (λ f, f ∈ fields) fields.
Proof. apply Forall_forall. auto. Qed.

Section ApplyConfig.
Context `{Externals}.

Lemma color_fields_declared name : name ∈ color_fields → name ∈ fields.
Proof.
  intros Hn. unfold color_fields in Hn.
  apply elem_of_cons in Hn as [-> | Hn]; [set_solver |].
  apply list_elem_of_singleton in Hn as ->. set_solver.
Qed.

Lemma resolve_color_spec name (p_base p_base' : gmap string PyValue) :
  name ∈ color_fields →
  resolve_color name p_base = Ok p_base' →
  ∃ v v', p_base !! name = Some v ∧ applied_value name v = Some v'
    ∧ p_base' = <[name := v']> p_base.
Proof.
  intros Hname. unfold resolve_color, applied_value.
  rewrite (bool_decide_eq_true_2 _ Hname).
  destruct (p_base !! name) as [v |] eqn:Hv; [| discriminate].
  destruct v as [n | q | flag | s | c]; intros Hrun;
    try (injection Hrun as <-; eexists _, _;
         split_and!; [reflexivity | reflexivity |];
         symmetry; by apply insert_id).
  destruct (Color_of_str s) as [c |] eqn:Hc; [| discriminate].
  rewrite (setattr_declared _ _ _ (color_fields_declared _ Hname)) in Hrun.
  injection Hrun as <-.
  exists (PyStr s), (PyColor c). by rewrite Hc.
Qed.

Lemma resolve_color_total name (p_base : gmap string PyValue) v v' :
  name ∈ color_fields →
  p_base !! name = Some v → applied_value name v = Some v' →
  resolve_color name p_base = Ok (<[name := v']> p_base).
Proof.
  intros Hname Hv. unfold resolve_color, applied_value.
  rewrite (bool_decide_eq_true_2 _ Hname), Hv.
  destruct v as [n | q | flag | s | c]; intros Ha;
    try (injection Ha as <-; f_equal; symmetry; by apply insert_id).
  destruct (Color_of_str s) as [c |]; [| discriminate].
  injection Ha as <-.
  apply setattr_declared, color_fields_declared, Hname.
Qed.

Lemma apply_config_lookup (config p_base p_base' : gmap string PyValue) f :
  apply_config config p_base = Ok p_base' →
  p_base' !! f =
    if bool_decide (f ∈ fields)
    then incoming config p_base f ≫= applied_value f
    else p_base !! f.
Proof.
  unfold apply_config.
  destruct (copy_fields_spec fields config p_base fields_declared)
    as (p1 & -> & Hp1). simpl.
  destruct (resolve_color "color_start" p1) as [p2 |] eqn:H2; [| discriminate].
  simpl. intros H3.
  apply resolve_color_spec in H2 as (v2 & v2' & Hv2 & Ha2 & ->); [| set_solver].
  apply resolve_color_spec in H3 as (v3 & v3' & Hv3 & Ha3 & ->); [| set_solver].
  rewrite lookup_insert_ne in Hv3 by done.
  rewrite Hp1 in Hv2, Hv3. simpl in Hv2, Hv3.
  fold (incoming config p_base "color_start") in Hv2.
  fold (incoming config p_base "color_end") in Hv3.
  destruct (decide (f = "color_end")) as [-> | Hne3].
  { rewrite lookup_insert_eq. simpl. rewrite Hv3. simpl. by rewrite Ha3. }
  rewrite lookup_insert_ne by done.
  destruct (decide (f = "color_start")) as [-> | Hne2].
  { rewrite lookup_insert_eq. simpl. rewrite Hv2. simpl. by rewrite Ha2. }
  rewrite lookup_insert_ne by done.
  rewrite Hp1. case_bool_decide as Hf; [| done].
  fold (incoming config p_base f).
  destruct (incoming config p_base f) as [v |]; [| done]. simpl.
  unfold applied_value.
  rewrite bool_decide_eq_false_2; [by destruct v |].
  unfold color_fields.
  intros [-> | ->%list_elem_of_singleton]%elem_of_cons; done.
Qed.

Lemma apply_config_total (config p_base : gmap string PyValue) :
  (∀ f, f ∈ color_fields → is_Some (incoming config p_base f ≫= applied_value f)) →
  ∃ p_base', apply_config config p_base = Ok p_base'.
Proof.
  intros Hcol. unfold apply_config.
  destruct (copy_fields_spec fields config p_base fields_declared)
    as (p1 & -> & Hp1). simpl.
  destruct (Hcol "color_start") as [v2' Hv2]; [set_solver |].
  destruct (Hcol "color_end") as [v3' Hv3]; [set_solver |].
  apply bind_Some in Hv2 as (v2 & Hi2 & Ha2).
  apply bind_Some in Hv3 as (v3 & Hi3 & Ha3).
  rewrite (resolve_color_total "color_start" p1 v2 v2'); [| set_solver | | done].
  2:{ rewrite Hp1. exact Hi2. }
  simpl. rewrite (resolve_color_total "color_end" _ v3 v3'); [| set_solver | | done].
  - by eexists.
  - rewrite lookup_insert_ne by done. rewrite Hp1. exact Hi3.
Qed.

(** C7.  [apply_config] copies every declared field the config object
    has into the live settings, parsing a colour field given as text;
    attributes outside the schema never reach the settings; it fails
    only when a colour cannot be resolved; and [__setattr__] refuses
    any key outside the schema. *)
Theorem apply_config_copies_declared_fields (config p_base : gmap string PyValue) :
  (** every declared field present on the config is copied, colours
      resolved *)
  (∀ p_base' f v, apply_config config p_base = Ok p_base' →
     f ∈ fields → config !! f = Some v → p_base' !! f = applied_value f v)
  (** a declared field the config lacks keeps its value (resolved, for
      a colour) *)
  ∧ (∀ p_base' f, apply_config config p_base = Ok p_base' →
     f ∈ fields → config !! f = None →
     p_base' !! f = p_base !! f ≫= applied_value f)
  (** attributes outside the schema are ignored *)
  ∧ (∀ p_base' f, apply_config config p_base = Ok p_base' →
     f ∉ fields → p_base' !! f = p_base !! f)
  (** the call goes through whenever both colours resolve *)
  ∧ ((∀ f, f ∈ color_fields →
        is_Some (incoming config p_base f ≫= applied_value f)) →
     ∃ p_base', apply_config config p_base = Ok p_base')
  (** the schema is closed *)
  ∧ (∀ (obj : gmap string PyValue) key v,
       key ∉ fields → __setattr__ obj key v = Raise AttributeError).
Proof.
  split_and!.
  - intros p' f v Hrun Hf Hc.
    rewrite (apply_config_lookup _ _ _ f Hrun).
    rewrite bool_decide_eq_true_2 by done. unfold incoming. by rewrite Hc.
  - intros p' f Hrun Hf Hc.
    rewrite (apply_config_lookup _ _ _ f Hrun).
    rewrite bool_decide_eq_true_2 by done. unfold incoming. by rewrite Hc.
  - intros p' f Hrun Hf.
    rewrite (apply_config_lookup _ _ _ f Hrun).
    by rewrite bool_decide_eq_false_2.
  - apply apply_config_total.
  - intros obj key v. apply setattr_undeclared.
Qed.

End ApplyConfig.

Lemma apply_config_copies_declared_fields_witness :
  ∃ p_base',
    apply_config (H := reference_externals) sample_config
      (to_attrs default_settings) = Ok p_base'
    ∧ p_base' !! "color_start" = Some (PyColor (Color.mk 190 74 47 255))
    ∧ p_base' !! "lifetime" = Some (PyInt 5)
    ∧ p_base' !! "spawn_rate" = Some (PyInt 1)
    ∧ p_base' !! "wind" = None.
Proof.
  destruct (apply_config_copies_declared_fields (H := reference_externals)
              sample_config (to_attrs default_settings))
    as (Hcopy & Hkeep & Hignore & Htotal & _).
  destruct Htotal as [p' Hp'].
  { intros f [-> | ->%list_elem_of_singleton]%elem_of_cons;
      vm_compute; eauto. }
  exists p'. split; [exact Hp' |]. split_and!.
  - rewrite (Hcopy p' "color_start" (PyStr "#be4a2f") Hp');
      [reflexivity | | reflexivity].
    apply color_fields_declared, list_elem_of_here.
  - rewrite (Hcopy p' "lifetime" (PyInt 5) Hp'); [reflexivity | | reflexivity].
    apply (bool_decide_unpack _). vm_compute. exact I.
  - rewrite (Hkeep p' "spawn_rate" Hp'); [reflexivity | | reflexivity].
    apply list_elem_of_here.
  - rewrite (Hignore p' "wind" Hp'); [reflexivity |].
    apply (bool_decide_unpack _). vm_compute. exact I.
Defined.

(** ** The update loop *)

Section UpdateLoop.
Context `{Externals}.

Lemma loop_body_unfold dt i p self tape :
  loop_body dt i p self tape =
    final ← interpolate_attributes (Emitter.p_base self) (aged self dt p);
    '(psurf, gsurf, tape') ← resync_shape (Emitter.p_base self) final tape;
    let shown := Particle.set_gsurf gsurf (Particle.set_surf psurf final) in
    Ok (Emitter.set_blit_list
          (Emitter.blit_list self ++ [(psurf, Particle.position final)])
          (Emitter.set_particles
             (settle (Emitter.particles self) i (aged self dt p) shown) self),
        tape').
Proof.
  unfold loop_body, settle, aged.
  set (old := advance_age dt (integrate_position self dt p)).
  destruct (if Qle_bool (Particle.lifetime old) (Particle.time_elapsed old)
            then list_remove (<[i:=old]> (Emitter.particles self)) i old
            else (<[i:=old]> (Emitter.particles self), Some i)) as [l slot].
  destruct (interpolate_attributes (Emitter.p_base self) old) as [final |];
    [| reflexivity].
  simpl.
  destruct (resync_shape (Emitter.p_base self) final tape) as [[[ps gs] tp] |];
    reflexivity.
Qed.

Lemma aged_expires self dt p :
  Qle_bool (Particle.lifetime (aged self dt p)) (Particle.time_elapsed (aged self dt p))
  = expires dt p.
Proof. reflexivity. Qed.

Lemma aged_time_elapsed self dt p :
  Particle.time_elapsed (aged self dt p)
  = (Particle.time_elapsed p + py_max dt min_dt)%Q.
Proof. reflexivity. Qed.

Lemma loop_body_Ok dt i p self tape self' tape' :
  loop_body dt i p self tape = Ok (self', tape') →
  ∃ final psurf gsurf,
    interpolate_attributes (Emitter.p_base self) (aged self dt p) = Ok final
    ∧ resync_shape (Emitter.p_base self) final tape = Ok (psurf, gsurf, tape')
    ∧ self' =
        Emitter.set_blit_list
          (Emitter.blit_list self ++ [(psurf, Particle.position final)])
          (Emitter.set_particles
             (settle (Emitter.particles self) i (aged self dt p)
                (Particle.set_gsurf gsurf (Particle.set_surf psurf final)))
             self).
Proof.
  rewrite loop_body_unfold. intros Hrun.
  destruct (interpolate_attributes _ _) as [final |] eqn:Hint; [| discriminate].
  simpl in Hrun.
  destruct (resync_shape _ final tape) as [[[ps gs] tp] |] eqn:Hres;
    [| discriminate].
  simpl in Hrun. injection Hrun as <- <-. by exists final, ps, gs.
Qed.

Lemma interpolate_attributes_Ok cfg p final :
  interpolate_attributes cfg p = Ok final →
  ∃ ratio,
    py_truediv (Particle.time_elapsed p) (Particle.lifetime p) = Ok ratio
    ∧ let t := (ratio * ratio)%Q in
      let c := Particle.color p in
      let e := color_end cfg in
      Particle.color final =
        Color.mk (lerp_channel (Color.r c) (Color.r e) t)
                 (lerp_channel (Color.g c) (Color.g e) t)
                 (lerp_channel (Color.b c) (Color.b e) t)
                 (lerp_channel (Color.a c) (Color.a e) t)
      ∧ Particle.size final = lerp (Particle.size p) (inject_Z (end_size cfg)) t
      ∧ Particle.alpha final = lerp (Particle.alpha p) (inject_Z (end_alpha cfg)) t
      ∧ Particle.position final = Particle.position p
      ∧ Particle.time_elapsed final = Particle.time_elapsed p.
Proof.
  unfold interpolate_attributes.
  destruct (py_truediv _ _) as [ratio |]; [| discriminate]. simpl.
  unfold interpolate_color, pygame_Color.
  destruct (_ && _)%bool; [| discriminate]. simpl.
  intros [= <-]. exists ratio. split; [reflexivity |]. simpl. done.
Qed.

Lemma resync_shape_stub cfg p tape :
  particle_type cfg = ANIMATION ∨ particle_type cfg = LINE →
  resync_shape cfg p tape = Ok (None, None, tape).
Proof. unfold resync_shape. by intros [-> | ->]. Qed.




Lemma eqb_spawn_twins a b : Particle.eqb a b = true → spawn_twins a b = true.
Proof.
  unfold Particle.eqb, spawn_twins. rewrite !andb_true_iff. tauto.
Qed.

Lemma not_twins_not_eqb a b : spawn_twins a b = false → Particle.eqb a b = false.
Proof.
  intros Hn. destruct (Particle.eqb a b) eqn:E; [| done].
  apply eqb_spawn_twins in E. congruence.
Qed.

Lemma spawn_twins_aged a self dt p :
  spawn_twins a (aged self dt p) = spawn_twins a p.
Proof. reflexivity. Qed.

(** *** [list.remove] and a prefix it cannot match *)

Lemma remove_index_le l i p : remove_index l i p ≤ i.
Proof.
  unfold remove_index.
  destruct (list_find _ _) as [[j q] |] eqn:Hf; [| done].
  apply list_find_Some in Hf as (Hl & _).
  apply lookup_lt_Some in Hl. rewrite length_take in Hl. lia.
Qed.

Lemma remove_index_no_match l i p :
  Forall (λ q, Particle.eqb q p = false) (take i l) → remove_index l i p = i.
Proof.
  intros Hall. unfold remove_index.
  rewrite (proj2 (list_find_None _ _)); [done |].
  eapply Forall_impl; [exact Hall |]. simpl. intros q Hq. congruence.
Qed.

Lemma remove_index_prepend pre l k p :
  Forall (λ q, Particle.eqb q p = false) pre →
  remove_index (pre ++ l) (length pre + k) p = length pre + remove_index l k p.
Proof.
  intros Hall. unfold remove_index. rewrite take_app_add.
  rewrite list_find_app_r.
  - destruct (list_find _ (take k l)) as [[j q] |]; simpl; lia.
  - apply list_find_None. eapply Forall_impl; [exact Hall |].
    simpl. intros q Hq. congruence.
Qed.

Lemma delete_prepend {A} (pre l : list A) j :
  delete (length pre + j) (pre ++ l) = pre ++ delete j l.
Proof. induction pre as [| a pre IH]; simpl; [done | by rewrite IH]. Qed.

Lemma settle_prepend pre l k old new :
  Forall (λ q, Particle.eqb q old = false) pre →
  settle (pre ++ l) (length pre + k) old new = pre ++ settle l k old new.
Proof.
  intros Hall. unfold settle. rewrite insert_app_r.
  destruct (Qle_bool (Particle.lifetime old) (Particle.time_elapsed old)).
  - unfold list_remove. rewrite remove_index_prepend by done.
    rewrite delete_prepend.
    pose proof (remove_index_le (<[k:=old]> l) k old) as Hle.
    destruct (remove_index (<[k:=old]> l) k old =? k) eqn:E.
    + apply Nat.eqb_eq in E. rewrite E, Nat.eqb_refl. done.
    + apply Nat.eqb_neq in E.
      rewrite (proj2 (Nat.eqb_neq _ _)) by lia.
      replace (length pre + k - 1) with (length pre + (k - 1)) by lia.
      by rewrite insert_app_r.
  - by rewrite insert_app_r.
Qed.

Lemma loop_body_frame pre dt k p self tape :
  Forall (λ q, spawn_twins q p = false) pre →
  loop_body dt (length pre + k) p (prepend pre self) tape
  = lift_result (prepend pre) (loop_body dt k p self tape).
Proof.
  intros Hall. rewrite !loop_body_unfold.
  change (Emitter.p_base (prepend pre self)) with (Emitter.p_base self).
  change (aged (prepend pre self) dt p) with (aged self dt p).
  destruct (interpolate_attributes _ _) as [final |]; [| reflexivity]. simpl.
  destruct (resync_shape _ final tape) as [[[ps gs] tp] |]; [| reflexivity].
  simpl. unfold prepend at 1. simpl. rewrite settle_prepend; [reflexivity |].
  eapply Forall_impl; [exact Hall |]. simpl. intros q Hq.
  apply not_twins_not_eqb. by rewrite spawn_twins_aged.
Qed.

(** What lies beyond the iterator after a pass lay beyond it before. *)
Lemma settle_beyond l k old new :
  drop (S k) (settle l k old new) = drop (S k) l
  ∨ drop (S k) (settle l k old new) = drop (S (S k)) l.
Proof.
  unfold settle.
  destruct (Qle_bool (Particle.lifetime old) (Particle.time_elapsed old)).
  - right. unfold list_remove.
    pose proof (remove_index_le (<[k:=old]> l) k old) as Hle.
    set (j := remove_index (<[k:=old]> l) k old) in *.
    assert (Hdel : drop (S k) (delete j (<[k:=old]> l)) = drop (S (S k)) l).
    { rewrite delete_take_drop.
      destruct (decide (j < length l)) as [Hj | Hj].
      - rewrite drop_app_ge; rewrite length_take, length_insert; [| lia].
        rewrite drop_drop. replace (S j + (S k - j `min` length l)) with (S (S k)) by lia.
        by rewrite drop_insert_lt by lia.
      - rewrite (drop_ge _ (S (S k))) by lia.
        rewrite (drop_ge (<[k:=old]> l)) by (rewrite length_insert; lia).
        rewrite app_nil_r. rewrite drop_ge; [done |].
        rewrite length_take, length_insert. lia. }
    destruct (j =? k) eqn:E; [exact Hdel |].
    apply Nat.eqb_neq in E. rewrite drop_insert_lt by lia. exact Hdel.
  - left. rewrite list_insert_insert_eq. by rewrite drop_insert_lt by lia.
Qed.

Lemma elem_of_drop_le {A} (l : list A) n m v :
  n ≤ m → v ∈ drop m l → v ∈ drop n l.
Proof.
  intros Hle [i Hi]%list_elem_of_lookup. rewrite lookup_drop in Hi.
  apply list_elem_of_lookup. exists (m - n + i). rewrite lookup_drop.
  rewrite <- Hi. f_equal. lia.
Qed.

Lemma particle_loop_frame fuel : ∀ dt k pre self tape,
  (∀ q p, q ∈ pre → p ∈ drop k (Emitter.particles self) → spawn_twins q p = false) →
  particle_loop fuel dt (length pre + k) (prepend pre self) tape
  = lift_result (prepend pre) (particle_loop fuel dt k self tape).
Proof.
  induction fuel as [| fuel IH]; intros dt k pre self tape Hsep; [reflexivity |].
  simpl. rewrite lookup_app_r by lia.
  replace (length pre + k - length pre) with k by lia.
  destruct (Emitter.particles self !! k) as [p |] eqn:Hk; [| reflexivity].
  assert (Hp : p ∈ drop k (Emitter.particles self)).
  { apply list_elem_of_lookup. exists 0. rewrite lookup_drop.
    by rewrite Nat.add_0_r. }
  rewrite loop_body_frame.
  2:{ apply Forall_forall. intros q Hq. by apply Hsep. }
  destruct (loop_body dt k p self tape) as [[self1 tape1] |] eqn:Hbody;
    [| reflexivity].
  simpl. rewrite <- Nat.add_succ_r. apply IH.
  intros q b Hq Hb. apply Hsep; [done |].
  rewrite loop_body_unfold in Hbody.
  destruct (interpolate_attributes _ _) as [final |]; [| discriminate].
  simpl in Hbody.
  destruct (resync_shape _ final tape) as [[[ps gs] tp] |]; [| discriminate].
  simpl in Hbody. injection Hbody as <- <-. simpl in Hb.
  destruct (settle_beyond (Emitter.particles self) k (aged self dt p)
              (Particle.set_gsurf gs (Particle.set_surf ps final))) as [E | E];
    rewrite E in Hb; eapply elem_of_drop_le; [| exact Hb | | exact Hb]; lia.
Qed.

Lemma no_twins_app l1 l2 :
  no_twins (l1 ++ l2) = true →
  no_twins l1 = true ∧ no_twins l2 = true
  ∧ ∀ q p, q ∈ l1 → p ∈ l2 → spawn_twins q p = false.
Proof.
  induction l1 as [| a l1 IH]; simpl.
  - intros Hn. split_and!; [done | done |]. intros q p Hq. inversion Hq.
  - rewrite forallb_app, !andb_true_iff. intros [[Ha1 Ha2] Hrest].
    destruct (IH Hrest) as (H1 & H2 & Hsep). split_and!; try done.
    intros q p [-> | Hq]%elem_of_cons Hp.
    + rewrite forallb_forall in Ha2.
      apply negb_true_iff, Ha2, list_elem_of_In, Hp.
    + by apply Hsep.
Qed.

Lemma no_twins_head p l q :
  no_twins (p :: l) = true → q ∈ l → spawn_twins p q = false.
Proof.
  simpl. rewrite andb_true_iff, forallb_forall. intros [Hp _] Hq.
  apply negb_true_iff, Hp, list_elem_of_In, Hq.
Qed.

Lemma no_twins_tail p l : no_twins (p :: l) = true → no_twins l = true.
Proof. simpl. rewrite andb_true_iff. tauto. Qed.

(** C9.  When the particle the iterator is at expires, [remove] shifts
    its successor [q] into the slot the iterator has just left.  The
    rest of the loop is exactly the loop over the particles after [q]:
    [q] stays in the list as it was (not moved, not aged, not
    interpolated) and the draw batch gets the entry of the removed
    particle followed only by entries of the particles after [q]. *)
Theorem successor_of_removed_particle_is_skipped
    fuel dt pre p q post self tape self' tape' :
  Emitter.particles self = pre ++ p :: q :: post →
  no_twins (Emitter.particles self) = true →
  expires dt p = true →
  particle_loop (S fuel) dt (length pre) self tape = Ok (self', tape') →
  ∃ self1 tape1 rest,
    loop_body dt (length pre) p self tape = Ok (self1, tape1)
    ∧ Emitter.particles self1 = pre ++ q :: post
    ∧ (∃ entry, Emitter.blit_list self1 = Emitter.blit_list self ++ [entry])
    ∧ particle_loop fuel dt 0 (Emitter.set_particles post self1) tape1
      = Ok (rest, tape')
    ∧ Emitter.particles self' = pre ++ q :: Emitter.particles rest
    ∧ Emitter.blit_list self' = Emitter.blit_list rest.
Proof.
  intros Hl Hnt Hexp Hrun.
  rewrite Hl in Hnt. apply no_twins_app in Hnt as (_ & Hnt & Hsep).
  simpl in Hrun. rewrite Hl, list_lookup_middle in Hrun by done.
  destruct (loop_body dt (length pre) p self tape) as [[self1 tape1] |] eqn:Hbody;
    [| discriminate].
  simpl in Hrun.
  assert (Hparts : Emitter.particles self1 = pre ++ q :: post
          ∧ ∃ entry, Emitter.blit_list self1 = Emitter.blit_list self ++ [entry]).
  { rewrite loop_body_unfold in Hbody.
    destruct (interpolate_attributes _ _) as [final |]; [| discriminate].
    simpl in Hbody.
    destruct (resync_shape _ final tape) as [[[ps gs] tp] |]; [| discriminate].
    simpl in Hbody. injection Hbody as <- <-. simpl. split; [| by eexists].
    unfold settle. rewrite aged_expires, Hexp. unfold list_remove.
    rewrite remove_index_no_match.
    - rewrite Nat.eqb_refl, Hl.
      rewrite insert_app_r_alt, Nat.sub_diag by lia. simpl. apply delete_middle.
    - rewrite take_insert_ge by lia. rewrite Hl, take_app_length.
      apply Forall_forall. intros a Ha. apply not_twins_not_eqb.
      rewrite spawn_twins_aged. apply Hsep; [done | apply list_elem_of_here]. }
  destruct Hparts as [Hparts Hentry].
  assert (Hself1 : self1 = prepend (pre ++ [q]) (Emitter.set_particles post self1)).
  { unfold prepend. destruct self1. simpl in *. subst.
    by rewrite <- app_assoc. }
  rewrite Hself1 in Hrun.
  replace (S (length pre)) with (length (pre ++ [q]) + 0) in Hrun
    by (rewrite length_app; simpl; lia).
  rewrite particle_loop_frame in Hrun.
  2:{ simpl. intros a b [Ha | ->%list_elem_of_singleton]%elem_of_app Hb.
      - apply Hsep; [done |]. by do 2 apply list_elem_of_further.
      - eapply no_twins_head; [| exact Hb]. eapply no_twins_tail, Hnt. }
  destruct (particle_loop fuel dt 0 (Emitter.set_particles post self1) tape1)
    as [[rest tape2] |] eqn:Hrest; [| discriminate].
  simpl in Hrun. injection Hrun as <- <-.
  exists self1, tape1, rest. split_and!; try done.
  unfold prepend. simpl. by rewrite <- app_assoc.
Qed.



(** *** The draw batch of the kinds that have no cached shape *)



(** *** Fields the loop never touches *)

Lemma settle_fmap {B} (f : Particle.t → B) l i p old new :
  l !! i = Some p → f old = f p → f new = f p →
  f <$> settle l i old new = f <$> l
  ∨ ∃ j, f <$> settle l i old new = delete j (f <$> l).
Proof.
  intros Hi Hold Hnew. unfold settle.
  assert (Hins : f <$> <[i:=old]> l = f <$> l).
  { rewrite list_fmap_insert, Hold. apply list_insert_id.
    by rewrite list_lookup_fmap, Hi. }
  assert (Hlen : i < length l) by by eapply lookup_lt_Some.
  destruct (Qle_bool (Particle.lifetime old) (Particle.time_elapsed old)).
  - right. unfold list_remove.
    pose proof (remove_index_le (<[i:=old]> l) i old) as Hle.
    set (j := remove_index (<[i:=old]> l) i old) in *.
    exists j.
    assert (Hdel : f <$> delete j (<[i:=old]> l) = delete j (f <$> l)).
    { rewrite !delete_take_drop, fmap_app, fmap_take, fmap_drop. by rewrite Hins. }
    destruct (j =? i) eqn:E; [exact Hdel |].
    apply Nat.eqb_neq in E.
    rewrite list_fmap_insert, Hnew, <- Hold.
    rewrite list_insert_id; [exact Hdel |].
    rewrite list_lookup_fmap, list_lookup_delete.
    destruct (decide (i - 1 < j)); [lia |].
    replace (S (i - 1)) with i by lia.
    rewrite list_lookup_insert_eq by done. done.
  - left. rewrite list_insert_insert_eq, list_fmap_insert, Hnew.
    apply list_insert_id. by rewrite list_lookup_fmap, Hi.
Qed.




Lemma room_filter_sublist self l kept :
  room_filter self l = Ok kept → kept `sublist_of` l.
Proof.
  revert kept. induction l as [| p l IH]; intros kept; simpl.
  - by intros [= <-].
  - destruct (room_rect self) as [rc |]; [| discriminate]. simpl.
    destruct (room_filter self l) as [rest |]; [| discriminate]. simpl.
    intros [= <-]. destruct (collidepoint rc (Particle.position p)).
    + by apply sublist_skip, IH.
    + by apply sublist_cons, IH.
Qed.


End UpdateLoop.

(** ** The random tape *)

Lemma random_random_range tape :
  (0 <= (random_random tape).1)%Q ∧ ((random_random tape).1 < 1)%Q.
Proof.
  unfold random_random. destruct (next_draw tape) as [q rest]. simpl.
  pose proof (Qfloor_le q). pose proof (Qlt_floor q) as Hlt.
  rewrite inject_Z_plus in Hlt. change (inject_Z 1) with 1%Q in Hlt.
  split; lra.
Qed.

Lemma random_uniform_eq lo hi tape :
  (random_uniform lo hi tape).1
  = (lo + (hi - lo) * (random_random tape).1)%Q.
Proof. unfold random_uniform. by destruct (random_random tape). Qed.

Lemma random_uniform_within lo hi tape :
  (lo < hi)%Q →
  (lo <= (random_uniform lo hi tape).1)%Q ∧ ((random_uniform lo hi tape).1 < hi)%Q.
Proof.
  intros Hlt. rewrite random_uniform_eq.
  destruct (random_random_range tape) as [H0 H1].
  set (u := (random_random tape).1) in *.
  assert (Hpos : (0 <= (hi - lo) * u)%Q) by (apply Qmult_le_0_compat; lra).
  assert (Hup : ((hi - lo) * u < (hi - lo) * 1)%Q)
    by (apply Qmult_lt_l; [lra | exact H1]).
  split; lra.
Qed.

Lemma random_uniform_degenerate lo hi tape :
  (hi == lo)%Q → ((random_uniform lo hi tape).1 == lo)%Q.
Proof.
  intros Heq. rewrite random_uniform_eq.
  set (u := (random_random tape).1). rewrite Heq. ring.
Qed.

Lemma random_randint_range tape :
  (0 <= (random_randint 0 100 tape).1 <= 100)%Z.
Proof.
  unfold random_randint, _randbelow. destruct (next_draw tape) as [q rest].
  cbn [fst]. change (100 - 0 + 1)%Z with 101%Z.
  pose proof (Z.mod_pos_bound (Qfloor q) 101). lia.
Qed.

(** Both ends can come up: 100 is a possible draw. *)
Lemma random_randint_reaches_100 : (random_randint 0 100 [100%Q]).1 = 100%Z.
Proof. reflexivity. Qed.

(** ** Spawning *)

Section Spawning.
Context `{Externals}.

Lemma spawn_particle_Ok self tape self' tape' :
  __spawn_particle self tape = Ok (self', tape') →
  ∃ p, self' = after_spawn self [p]
    ∧ Particle.start_position p = Particle.position p
    ∧ Vector2.x (Particle.position p)
      = (Vector2.x (Emitter.position self)
         + (random_uniform 0 (Vector2.x (Emitter.size self)) tape).1)%Q
    ∧ Vector2.y (Particle.position p)
      = (Vector2.y (Emitter.position self)
         + (random_uniform 0 (Vector2.y (Emitter.size self))
              (random_uniform 0 (Vector2.x (Emitter.size self)) tape).2).1)%Q.
Proof.
  unfold __spawn_particle.
  destruct (random_uniform 0 (Vector2.x (Emitter.size self)) tape)
    as [rnd_x tape1].
  cbn [fst snd].
  destruct (random_uniform 0 (Vector2.y (Emitter.size self)) tape1)
    as [rnd_y tape2].
  destruct (random_uniform (3 # 10) (6 # 10) tape2) as [freq tape3].
  destruct (random_uniform (6 # 10) (2 * math_pi) tape3) as [ph tape4].
  destruct (if random_x_dir (Emitter.p_base self)
            then random_choice (-1)%Z 1%Z tape4 else (1%Z, tape4))
    as [xdir tape5].
  destruct (if random_y_dir (Emitter.p_base self)
            then random_choice (-1)%Z 1%Z tape5 else (1%Z, tape5))
    as [ydir tape6].
  destruct (random_uniform 0 (random_velocity_deviation (Emitter.p_base self)) tape6)
    as [dev tape7].
  match goal with
  | |- (?m ≫= _) = _ → _ => destruct m as [psurf |]; [| discriminate]
  end.
  simpl. intros [= <- <-]. eexists. split; [reflexivity |]. simpl. done.
Qed.

Lemma after_spawn_app self l1 l2 :
  after_spawn (after_spawn self l1) l2 = after_spawn self (l1 ++ l2).
Proof.
  unfold after_spawn, Emitter.set_particle_count, Emitter.set_particles.
  destruct self. simpl.
  rewrite length_app, Nat2Z.inj_add, <- app_assoc. f_equal. lia.
Qed.

Lemma spawn_loop_Ok n : ∀ self tape self' tape',
  spawn_loop n self tape = Ok (self', tape') →
  ∃ spawned, length spawned = n ∧ self' = after_spawn self spawned.
Proof.
  induction n as [| n IH]; intros self tape self' tape'; simpl.
  - intros [= <- <-]. exists []. split; [done |].
    unfold after_spawn, Emitter.set_particle_count, Emitter.set_particles.
    destruct self. simpl. rewrite app_nil_r. f_equal. lia.
  - destruct (__spawn_particle self tape) as [[self1 tape1] |] eqn:Hone;
      [| discriminate].
    simpl. intros Hrest.
    apply spawn_particle_Ok in Hone as (p & -> & _).
    apply IH in Hrest as (spawned & Hlen & ->).
    exists (p :: spawned). split; [simpl; lia |].
    by rewrite after_spawn_app.
Qed.

(** What [__update_auto] does, by the timer, the draw and the chance. *)
Lemma update_auto_Ok self tape self' tape' :
  __update_auto self tape = Ok (self', tape') →
  let cfg := Emitter.p_base self in
  let draw := (random_randint 0 100 tape).1 in
  if (Qle_bool (spawn_delay cfg) (Emitter.spawn_timer self)
      && Qlt_bool (inject_Z draw) (particle_chance cfg))%bool
  then ∃ spawned, length spawned = Z.to_nat (spawn_rate cfg)
         ∧ self' = Emitter.set_spawn_timer 0 (after_spawn self spawned)
  else self' = self.
Proof.
  unfold __update_auto. cbv zeta.
  destruct (Qle_bool _ _); simpl; [| by intros [= <- <-]].
  destruct (random_randint 0 100 tape) as [n tape1]. simpl.
  destruct (Qlt_bool _ _); [| by intros [= <- <-]].
  unfold __spawn_particle_rate.
  destruct (spawn_loop _ self tape1) as [[self1 tape2] |] eqn:Hloop;
    [| discriminate].
  simpl. intros [= <- <-].
  apply spawn_loop_Ok in Hloop as (spawned & Hlen & ->). by exists spawned.
Qed.

(** With [particle_chance = 100] the gate lets every draw through
    except 100 itself. *)
Lemma chance_100_gate (draw : Z) :
  (0 <= draw <= 100)%Z →
  Qlt_bool (inject_Z draw) 100 = bool_decide (draw ≠ 100%Z).
Proof.
  intros Hr. unfold Qlt_bool, Qle_bool. simpl.
  case_bool_decide; destruct (100 * 1 <=? draw * 1)%Z eqn:E; simpl; (done || lia).
Qed.

(** In automatic mode with [particle_chance = 100] and the timer at its
    threshold, the spawn happens for every draw but 100. *)
Lemma chance_100_blocks_only_at_100 self tape self' tape' :
  particle_chance (Emitter.p_base self) = 100%Q →
  Qle_bool (spawn_delay (Emitter.p_base self)) (Emitter.spawn_timer self) = true →
  __update_auto self tape = Ok (self', tape') →
  if bool_decide ((random_randint 0 100 tape).1 ≠ 100%Z)
  then ∃ spawned,
         length spawned = Z.to_nat (spawn_rate (Emitter.p_base self))
         ∧ self' = Emitter.set_spawn_timer 0 (after_spawn self spawned)
  else self' = self.
Proof.
  intros Hchance Htimer Hrun. apply update_auto_Ok in Hrun. cbv zeta in Hrun.
  rewrite Htimer, Hchance in Hrun. simpl in Hrun.
  by rewrite (chance_100_gate _ (random_randint_range tape)) in Hrun.
Qed.

End Spawning.

(** ** Whole frames *)

Section Frames.
Context `{Externals}.






End Frames.

(** ** render *)


Lemma py_truediv_nonzero u v :
  ¬ (v == 0)%Q → py_truediv u v = Ok (u / v)%Q.
Proof.
  intros Hv. unfold py_truediv.
  destruct (Qeq_bool v 0) eqn:E; [| done].
  by apply Qeq_bool_iff in E.
Qed.

Lemma square_nonneg (u : Q) : (0 <= u * u)%Q.
Proof.
  destruct (Qlt_le_dec u 0) as [Hn | Hp].
  - assert (Heq : (u * u == (- u) * (- u))%Q) by ring.
    rewrite Heq. apply Qmult_le_0_compat; lra.
  - by apply Qmult_le_0_compat.
Qed.

Lemma square_pos (u : Q) : ¬ (u == 0)%Q → (0 < u * u)%Q.
Proof.
  intros Hu. destruct (Qlt_le_dec u 0) as [Hn | Hp].
  - assert (Heq : (u * u == (- u) * (- u))%Q) by ring.
    rewrite Heq. apply Qmult_lt_0_compat; lra.
  - apply Qmult_lt_0_compat; apply Qle_lt_or_eq in Hp as [? | Heq];
      (done || (exfalso; apply Hu; by symmetry)).
Qed.


Lemma sum_squares_pos (u v : Q) :
  ¬ ((u == 0)%Q ∧ (v == 0)%Q) → (0 < u * u + v * v)%Q.
Proof.
  intros Hnz. pose proof (square_nonneg u). pose proof (square_nonneg v).
  destruct (Qeq_dec u 0) as [Hu | Hu].
  - destruct (Qeq_dec v 0) as [Hv | Hv]; [tauto |].
    pose proof (square_pos v Hv). lra.
  - pose proof (square_pos u Hu). lra.
Qed.

Section Render.
Context `{Externals}.
Hypothesis sqrt_zero : ∀ v, (v == 0)%Q → (math_sqrt v == 0)%Q.
Hypothesis sqrt_nonzero : ∀ v, (0 < v)%Q → ¬ (math_sqrt v == 0)%Q.


Lemma velocity_length_nonzero p :
  ¬ zero_velocity p → ¬ (velocity_length p == 0)%Q.
Proof.
  intros Hnz. unfold velocity_length. cbv zeta.
  by apply sqrt_nonzero, sum_squares_pos.
Qed.


Lemma render_lines_nonzero offset l :
  Forall (λ p, ¬ zero_velocity p) l →
  ∃ lines, render_lines offset l = Ok lines ∧ length lines = length l.
Proof.
  induction 1 as [| p l Hp _ (lines & IH & Hlen)]; [by exists [] |].
  simpl. fold (velocity_length p).
  rewrite !py_truediv_nonzero by (by apply velocity_length_nonzero).
  simpl. rewrite IH. simpl. eexists. split; [reflexivity |]. simpl. lia.
Qed.


End Render.

(** The reference square root vanishes exactly at zero. *)
Lemma heron_pos v guess : (0 < v)%Q → (0 < guess)%Q → (0 < heron v guess)%Q.
Proof.
  intros Hv Hg. unfold heron.
  assert (Hq : (0 < v / guess)%Q) by (apply Qlt_shift_div_l; lra).
  set (w := (v / guess)%Q) in *.
  apply Qlt_shift_div_l; lra.
Qed.


Lemma sqrt_approx_nonzero v : (0 < v)%Q → ¬ (sqrt_approx v == 0)%Q.
Proof.
  intros Hv. unfold sqrt_approx.
  destruct (Qle_bool v 0) eqn:E; [apply Qle_bool_iff in E; lra |].
  rewrite Qred_correct.
  assert (Hh : (0 < heron v (heron v ((v + 1) / 2)))%Q).
  { apply heron_pos; [done |]. apply heron_pos; [done |].
    apply Qlt_shift_div_l; lra. }
  lra.
Qed.

(** ** The loop runs to the end of the list *)

Section Fuel.
Context `{Externals}.

Lemma settle_length l i old new : length (settle l i old new) ≤ length l.
Proof.
  unfold settle.
  destruct (Qle_bool (Particle.lifetime old) (Particle.time_elapsed old)).
  - unfold list_remove.
    set (j := remove_index (<[i:=old]> l) i old).
    assert (Hdel : length (delete j (<[i:=old]> l)) ≤ length l).
    { rewrite <- (length_insert l i old). apply sublist_length, sublist_delete. }
    destruct (j =? i); [exact Hdel |]. by rewrite length_insert.
  - by rewrite !length_insert.
Qed.

Lemma loop_body_length dt i p self tape self' tape' :
  loop_body dt i p self tape = Ok (self', tape') →
  length (Emitter.particles self') ≤ length (Emitter.particles self).
Proof.
  intros Hrun. apply loop_body_Ok in Hrun as (final & ps & gs & _ & _ & ->).
  simpl. apply settle_length.
Qed.

(** Fuel equal to what is left of the list is enough: more fuel
    changes nothing. *)
Lemma particle_loop_fuel fuel : ∀ extra dt i self tape,
  length (Emitter.particles self) - i ≤ fuel →
  particle_loop (fuel + extra) dt i self tape = particle_loop fuel dt i self tape.
Proof.
  induction fuel as [| fuel IH]; intros extra dt i self tape Hlen.
  - simpl. destruct extra as [| extra]; [reflexivity |]. simpl.
    rewrite lookup_ge_None_2 by lia. reflexivity.
  - simpl. destruct (Emitter.particles self !! i) as [p |] eqn:Hi; [| reflexivity].
    destruct (loop_body dt i p self tape) as [[self1 tape1] |] eqn:Hbody;
      [| reflexivity].
    simpl. apply IH. apply loop_body_length in Hbody. lia.
Qed.

Lemma py_max_floor dt :
  (min_dt <= py_max dt min_dt)%Q ∧ (dt <= py_max dt min_dt)%Q.
Proof.
  unfold py_max, Qlt_bool.
  destruct (Qle_bool min_dt dt) eqn:E; simpl.
  - apply Qle_bool_iff in E. split; lra.
  - assert (¬ (min_dt <= dt)%Q) by (rewrite <- Qle_bool_iff; congruence).
    split; lra.
Qed.

(** A particle the loop visits and keeps has aged by [max(dt, 1/240)]. *)
Lemma visited_particle_ages dt i p self tape self' tape' :
  Emitter.particles self !! i = Some p →
  expires dt p = false →
  loop_body dt i p self tape = Ok (self', tape') →
  ∃ q, Emitter.particles self' !! i = Some q
    ∧ Particle.time_elapsed q = (Particle.time_elapsed p + py_max dt min_dt)%Q.
Proof.
  intros Hi Hexp Hrun.
  apply loop_body_Ok in Hrun as (final & ps & gs & Hint & _ & ->).
  apply interpolate_attributes_Ok in Hint as (ratio & _ & Hattrs).
  cbv zeta in Hattrs. destruct Hattrs as (_ & _ & _ & _ & Hte).
  eexists. split.
  - simpl. unfold settle. rewrite aged_expires, Hexp.
    apply list_lookup_insert_eq. rewrite length_insert.
    by eapply lookup_lt_Some.
  - simpl. by rewrite Hte.
Qed.

End Fuel.

(** ** The claims on concrete frames *)



(** C3.  [randint(0, 100)] includes 100.  In the spec's scenario, with
    the timer at its threshold and [particle_chance = 100], the draw
    100 is not below the chance: nothing is spawned and the timer is
    left where it is.  With the draw 99 the same update spawns the
    three particles and resets the timer. *)
Theorem chance_gate_blocks_at_draw_100 :
  (random_randint 0 100 [100%Q]).1 = 100%Z
  ∧ (∃ self' tape',
       update (H := reference_externals) (1 # 10)
         (sample_emitter true (Vector2.mk 0 0) [] auto_scenario) [100%Q]
       = Ok (self', tape')
       ∧ Emitter.particles self' = []
       ∧ Emitter.particle_count self' = 0%Z
       ∧ (Emitter.spawn_timer self' == 1 # 10)%Q)
  ∧ (∃ self' tape',
       update (H := reference_externals) (1 # 10)
         (sample_emitter true (Vector2.mk 0 0) [] auto_scenario) [99%Q]
       = Ok (self', tape')
       ∧ length (Emitter.particles self') = 3
       ∧ Emitter.particle_count self' = 3%Z
       ∧ (Emitter.spawn_timer self' == 0)%Q).
Proof.
  split; [reflexivity |]. split.
  - eexists _, _. split; [vm_compute; reflexivity |]. split_and!; reflexivity.
  - eexists _, _. split; [vm_compute; reflexivity |]. split_and!; reflexivity.
Qed.


(** The second frame starts from the first frame's colour (191), so it
    ends at 122; easing the spawn colour (255) by the same factor would
    give 163. *)
Example second_frame_relerps_first_frame_result :
  interpolate_color (Color.mk 191 191 191 255) (Color.mk 0 0 0 255)
    ((6 # 10) * (6 # 10))%Q = Ok (Color.mk 122 122 122 255)
  ∧ interpolate_color (Color.mk 255 255 255 255) (Color.mk 0 0 0 255)
      ((6 # 10) * (6 # 10))%Q = Ok (Color.mk 163 163 163 255).
Proof. split; reflexivity. Qed.

(** C5.  The particle that follows a removed one is skipped by the
    iterator: it survives the update, and its [time_elapsed] is what it
    was before, although [dt] was a tenth of a second. *)
Theorem skipped_particle_is_not_aged :
  ∃ self' tape',
    update (H := reference_externals) (1 # 10)
      (sample_emitter false (Vector2.mk 0 0)
         [sample_particle 1 (95 # 100) 1; sample_particle 2 (1 # 2) 1]
         default_settings) [] = Ok (self', tape')
    ∧ Emitter.particles self' = [sample_particle 2 (1 # 2) 1]
    ∧ Particle.time_elapsed <$> Emitter.particles self' = [(1 # 2)%Q].
Proof.
  eexists _, _. split; [vm_compute; reflexivity |]. split; reflexivity.
Qed.




Lemma successor_of_removed_particle_is_skipped_witness :
  ∃ self' tape',
    particle_loop (H := reference_externals) 3 (1 # 10) 0
      (sample_emitter false (Vector2.mk 0 0)
         [sample_particle 1 (95 # 100) 1; sample_particle 2 (1 # 2) 1;
          sample_particle 3 0 1] default_settings) []
    = Ok (self', tape')
    ∧ Emitter.particles self' !! 0 = Some (sample_particle 2 (1 # 2) 1)
    ∧ length (Emitter.particles self') = 2
    ∧ length (Emitter.blit_list self') = 2.
Proof.
  destruct (particle_loop (H := reference_externals) 3 (1 # 10) 0
              (sample_emitter false (Vector2.mk 0 0)
                 [sample_particle 1 (95 # 100) 1; sample_particle 2 (1 # 2) 1;
                  sample_particle 3 0 1] default_settings) [])
    as [[self' tape'] |] eqn:Hrun; [| vm_compute in Hrun; discriminate].
  destruct (successor_of_removed_particle_is_skipped (H := reference_externals)
              2 (1 # 10) [] (sample_particle 1 (95 # 100) 1)
              (sample_particle 2 (1 # 2) 1) [sample_particle 3 0 1]
              (sample_emitter false (Vector2.mk 0 0)
                 [sample_particle 1 (95 # 100) 1; sample_particle 2 (1 # 2) 1;
                  sample_particle 3 0 1] default_settings) [] self' tape'
              eq_refl eq_refl eq_refl Hrun)
    as (self1 & tape1 & rest & Hbody & Hparts & Hentry & Hrest & Hlive & Hblit).
  exists self', tape'. split; [reflexivity |].
  assert (Hself1 : Ok (self1, tape1)
                   = loop_body (H := reference_externals) (1 # 10) 0
                       (sample_particle 1 (95 # 100) 1)
                       (sample_emitter false (Vector2.mk 0 0)
                          [sample_particle 1 (95 # 100) 1;
                           sample_particle 2 (1 # 2) 1;
                           sample_particle 3 0 1] default_settings) [])
    by (symmetry; exact Hbody).
  vm_compute in Hself1. injection Hself1 as -> ->.
  vm_compute in Hrest. injection Hrest as <- <-.
  rewrite Hlive, Hblit. split_and!; reflexivity.
Defined.


(** * Further properties of the code *)

(** ** [int()] on values that sit between integers *)

Lemma py_int_inject (q : Q) (c : Z) : (q == inject_Z c)%Q → py_int q = c.
Proof.
  unfold Qeq, py_int. simpl. intros Heq.
  rewrite Z.mul_1_r in Heq. rewrite Heq. apply Z.quot_mul. done.
Qed.

Lemma py_int_between (q : Q) (lo hi : Z) :
  (0 <= lo)%Z → (inject_Z lo <= q)%Q → (q <= inject_Z hi)%Q →
  (lo <= py_int q <= hi)%Z.
Proof.
  unfold Qle, py_int. simpl. rewrite !Z.mul_1_r. intros Hlo Hl Hh.
  assert (Hn : (0 <= Qnum q)%Z) by nia.
  rewrite Z.quot_div_nonneg by lia. split.
  - apply Z.div_le_lower_bound; lia.
  - apply Z.div_le_upper_bound; lia.
Qed.

Lemma lerp_value_between (c e : Z) (t : Q) :
  (0 <= t)%Q → (t <= 1)%Q →
  (inject_Z (Z.min c e) <= inject_Z c + (inject_Z e - inject_Z c) * t)%Q
  ∧ (inject_Z c + (inject_Z e - inject_Z c) * t <= inject_Z (Z.max c e))%Q.
Proof.
  intros H0 H1.
  set (d := (inject_Z e - inject_Z c)%Q).
  destruct (Z.le_ge_cases c e) as [Hle | Hge].
  - rewrite Z.min_l, Z.max_r by done.
    assert (Hd : (0 <= d)%Q).
    { unfold d. rewrite Zle_Qle in Hle. lra. }
    assert (Hp : (0 <= d * t)%Q) by (by apply Qmult_le_0_compat).
    assert (Hq : (0 <= d * (1 - t))%Q) by (apply Qmult_le_0_compat; lra).
    unfold d in *. split; lra.
  - rewrite Z.min_r, Z.max_l by lia.
    assert (Hd : (0 <= - d)%Q).
    { unfold d. assert (Hle : (e <= c)%Z) by lia. rewrite Zle_Qle in Hle. lra. }
    assert (Hp : (0 <= (- d) * t)%Q) by (by apply Qmult_le_0_compat).
    assert (Hq : (0 <= (- d) * (1 - t))%Q) by (apply Qmult_le_0_compat; lra).
    unfold d in *. split; lra.
Qed.

Lemma lerp_channel_between (c e : Z) (t : Q) :
  (0 <= c)%Z → (0 <= e)%Z → (0 <= t)%Q → (t <= 1)%Q →
  (Z.min c e <= lerp_channel c e t <= Z.max c e)%Z.
Proof.
  intros Hc He H0 H1. destruct (lerp_value_between c e t H0 H1).
  apply py_int_between; [lia | done | done].
Qed.

Lemma channel_ok_spec (c : Z) : channel_ok c = true ↔ (0 <= c <= 255)%Z.
Proof. unfold channel_ok. rewrite andb_true_iff, !Z.leb_le. tauto. Qed.

(** ** interpolate_color *)

Lemma pygame_Color_valid cr cg cb ca :
  (0 <= cr <= 255)%Z → (0 <= cg <= 255)%Z → (0 <= cb <= 255)%Z →
  (0 <= ca <= 255)%Z →
  pygame_Color cr cg cb ca = Ok (Color.mk cr cg cb ca).
Proof.
  intros Hr Hg Hb Ha. unfold pygame_Color.
  by rewrite !(proj2 (channel_ok_spec _)).
Qed.

(** X1.  For a factor in [0, 1] and two colours [pygame.Color] can hold,
    [interpolate_color] never raises, and every channel of the result
    lies between the corresponding channels of the two colours. *)
Theorem interpolate_color_in_range (color1 color2 : Color.t) (t : Q) :
  valid_color color1 → valid_color color2 → (0 <= t)%Q → (t <= 1)%Q →
  ∃ c, interpolate_color color1 color2 t = Ok c
    ∧ valid_color c
    ∧ (Z.min (Color.r color1) (Color.r color2) <= Color.r c
       <= Z.max (Color.r color1) (Color.r color2))%Z
    ∧ (Z.min (Color.g color1) (Color.g color2) <= Color.g c
       <= Z.max (Color.g color1) (Color.g color2))%Z
    ∧ (Z.min (Color.b color1) (Color.b color2) <= Color.b c
       <= Z.max (Color.b color1) (Color.b color2))%Z
    ∧ (Z.min (Color.a color1) (Color.a color2) <= Color.a c
       <= Z.max (Color.a color1) (Color.a color2))%Z.
Proof.
  intros (Hr1 & Hg1 & Hb1 & Ha1) (Hr2 & Hg2 & Hb2 & Ha2) H0 H1.
  pose proof (lerp_channel_between (Color.r color1) (Color.r color2) t
                ltac:(lia) ltac:(lia) H0 H1) as Hr.
  pose proof (lerp_channel_between (Color.g color1) (Color.g color2) t
                ltac:(lia) ltac:(lia) H0 H1) as Hg.
  pose proof (lerp_channel_between (Color.b color1) (Color.b color2) t
                ltac:(lia) ltac:(lia) H0 H1) as Hb.
  pose proof (lerp_channel_between (Color.a color1) (Color.a color2) t
                ltac:(lia) ltac:(lia) H0 H1) as Ha.
  unfold lerp_channel in *. unfold interpolate_color.
  rewrite pygame_Color_valid by lia.
  eexists. split; [reflexivity |]. unfold valid_color. simpl.
  split_and!; lia.
Qed.

Lemma interpolate_color_in_range_witness :
  ∃ c, interpolate_color white (Color.mk 0 0 0 255) (1 # 4)%Q = Ok c
    ∧ (0 <= Color.r c <= 255)%Z.
Proof.
  destruct (interpolate_color_in_range white (Color.mk 0 0 0 255) (1 # 4)%Q)
    as (c & Hrun & _ & Hr & _).
  - unfold valid_color. simpl. lia.
  - unfold valid_color. simpl. lia.
  - lra.
  - lra.
  - exists c. split; [exact Hrun |]. simpl in Hr. exact Hr.
Defined.

(** X2.  At the factor 0 the result is the first colour, at the factor 1 it
    is the second. *)
Theorem interpolate_color_endpoints (color1 color2 : Color.t) (t : Q) :
  valid_color color1 → valid_color color2 →
  ((t == 0)%Q → interpolate_color color1 color2 t = Ok color1)
  ∧ ((t == 1)%Q → interpolate_color color1 color2 t = Ok color2).
Proof.
  intros (Hr1 & Hg1 & Hb1 & Ha1) (Hr2 & Hg2 & Hb2 & Ha2).
  split; intros Ht; unfold interpolate_color.
  - rewrite (py_int_inject _ (Color.r color1)) by (rewrite Ht; ring).
    rewrite (py_int_inject _ (Color.g color1)) by (rewrite Ht; ring).
    rewrite (py_int_inject _ (Color.b color1)) by (rewrite Ht; ring).
    rewrite (py_int_inject _ (Color.a color1)) by (rewrite Ht; ring).
    rewrite pygame_Color_valid by done. by destruct color1.
  - rewrite (py_int_inject _ (Color.r color2)) by (rewrite Ht; ring).
    rewrite (py_int_inject _ (Color.g color2)) by (rewrite Ht; ring).
    rewrite (py_int_inject _ (Color.b color2)) by (rewrite Ht; ring).
    rewrite (py_int_inject _ (Color.a color2)) by (rewrite Ht; ring).
    rewrite pygame_Color_valid by done. by destruct color2.
Qed.

Lemma interpolate_color_endpoints_witness :
  interpolate_color white (Color.mk 0 0 0 255) 0 = Ok white
  ∧ interpolate_color white (Color.mk 0 0 0 255) 1 = Ok (Color.mk 0 0 0 255).
Proof.
  destruct (interpolate_color_endpoints white (Color.mk 0 0 0 255) 0) as [H0 _];
    [unfold valid_color; simpl; lia | unfold valid_color; simpl; lia |].
  destruct (interpolate_color_endpoints white (Color.mk 0 0 0 255) 1) as [_ H1];
    [unfold valid_color; simpl; lia | unfold valid_color; simpl; lia |].
  split; [apply H0 | apply H1]; reflexivity.
Defined.



(** ** room_rect and the room filter *)

Lemma py_floordiv_zero u v :
  (v == 0)%Q → py_floordiv u v = Raise ZeroDivisionError.
Proof.
  intros Hv. unfold py_floordiv. by rewrite (proj2 (Qeq_bool_iff v 0) Hv).
Qed.

Lemma py_floordiv_nonzero u v :
  ¬ (v == 0)%Q → py_floordiv u v = Ok (inject_Z (Qfloor (u / v))).
Proof.
  intros Hv. unfold py_floordiv.
  destruct (Qeq_bool v 0) eqn:E; [| done]. by apply Qeq_bool_iff in E.
Qed.


(** X4.  [room_rect] divides by the room dimensions: a zero dimension raises
    [ZeroDivisionError], any other pair of dimensions gives a rectangle. *)
Theorem room_rect_fails_exactly_on_zero_dimension (self : Emitter.t) :
  ((Vector2.x (Emitter.dimensions self) == 0)%Q
   ∨ (Vector2.y (Emitter.dimensions self) == 0)%Q →
   room_rect self = Raise ZeroDivisionError)
  ∧ (¬ (Vector2.x (Emitter.dimensions self) == 0)%Q →
     ¬ (Vector2.y (Emitter.dimensions self) == 0)%Q →
     ∃ rc, room_rect self = Ok rc).
Proof.
  unfold room_rect. split.
  - intros [Hx | Hy].
    + rewrite (py_floordiv_zero _ _ Hx). reflexivity.
    + destruct (Qeq_dec (Vector2.x (Emitter.dimensions self)) 0) as [Hx | Hx].
      * rewrite (py_floordiv_zero _ _ Hx). reflexivity.
      * rewrite (py_floordiv_nonzero _ _ Hx). simpl.
        rewrite (py_floordiv_zero _ _ Hy). reflexivity.
  - intros Hx Hy.
    rewrite (py_floordiv_nonzero _ _ Hx), (py_floordiv_nonzero _ _ Hy).
    simpl. by eexists.
Qed.

Lemma room_rect_fails_exactly_on_zero_dimension_witness :
  room_rect (set_room_dimensions (Vector2.mk 0 64)
               (sample_emitter true (Vector2.mk 0 0) [] default_settings))
  = Raise ZeroDivisionError.
Proof.
  apply (proj1 (room_rect_fails_exactly_on_zero_dimension _)).
  left. reflexivity.
Defined.



(** X6.  The room filter evaluates [room_rect] once per particle: on an
    empty list it never divides, on any other list it fails as
    [room_rect] does, and otherwise it keeps, in order, exactly the
    particles whose position the rectangle holds. *)
Theorem room_filter_keeps_the_particles_in_the_room (self : Emitter.t)
    (l : list Particle.t) :
  room_filter self [] = Ok []
  ∧ (∀ rc, room_rect self = Ok rc →
       room_filter self l
       = Ok (filter (λ p, collidepoint rc (Particle.position p) = true) l))
  ∧ (∀ e, room_rect self = Raise e → l ≠ [] → room_filter self l = Raise e).
Proof.
  split_and!; [reflexivity | |].
  - intros rc Hrc. induction l as [| p l IH]; [reflexivity |].
    simpl. rewrite Hrc, IH. simpl.
    destruct (collidepoint rc (Particle.position p)) eqn:E.
    + by rewrite filter_cons_True.
    + rewrite filter_cons_False; [done | congruence].
  - intros e He Hne. destruct l as [| p l]; [done |]. simpl. by rewrite He.
Qed.

Lemma room_filter_keeps_the_particles_in_the_room_witness :
  room_filter (sample_emitter true (Vector2.mk 0 0) [] default_settings)
    [sample_particle 1 0 1; sample_particle 70 0 1; sample_particle 3 0 1]
  = Ok [sample_particle 1 0 1; sample_particle 3 0 1]
  ∧ room_filter (set_room_dimensions (Vector2.mk 0 0)
                   (sample_emitter true (Vector2.mk 0 0) [] default_settings))
      [sample_particle 1 0 1] = Raise ZeroDivisionError.
Proof.
  split.
  - rewrite (proj1 (proj2 (room_filter_keeps_the_particles_in_the_room
                             (sample_emitter true (Vector2.mk 0 0) []
                                default_settings) _))
               (mkRect 0 0 64 64) eq_refl).
    reflexivity.
  - apply (proj2 (proj2 (room_filter_keeps_the_particles_in_the_room _ _)));
      [reflexivity | discriminate].
Defined.

(** ** The shape cache, for every argument *)

(** X7.  Both getters serve the sizes 1 to 10 from their table (a square of
    that side, or a disc of that radius on a square twice as wide) and
    raise [ValueError] for every negative argument and every argument
    above 10. *)
Theorem shape_cache_serves_1_to_10 (n : Z) :
  ((1 <= n <= 10)%Z →
     _get_rect_surface n = Ok (Surface_fill white (new_Surface n n))
     ∧ _get_circle_surface n
       = Ok (draw_circle white n n n (new_Surface (n * 2) (n * 2))))
  ∧ ((n < 0)%Z ∨ (10 < n)%Z →
     _get_rect_surface n = Raise ValueError
     ∧ _get_circle_surface n = Raise ValueError).
Proof.
  split.
  - intros Hn. rewrite _get_rect_surface_range by lia.
    rewrite _get_circle_surface_range.
    by rewrite !bool_decide_eq_true_2.
  - intros Hn. rewrite _get_rect_surface_range by lia.
    rewrite _get_circle_surface_range.
    rewrite !bool_decide_eq_false_2 by lia. done.
Qed.

Lemma shape_cache_serves_1_to_10_witness :
  _get_rect_surface 7 = Ok (Surface_fill white (new_Surface 7 7))
  ∧ _get_circle_surface (-3) = Raise ValueError.
Proof.
  split.
  - apply (proj1 (shape_cache_serves_1_to_10 7)). lia.
  - apply (proj2 (shape_cache_serves_1_to_10 (-3))). lia.
Defined.

(** ** Spawning, for every tape *)

Lemma get_rect_surface_ok (n : Z) :
  (0 <= n <= 10)%Z → ∃ s, _get_rect_surface n = Ok s.
Proof.
  intros Hn. destruct (decide (n = 0%Z)) as [-> | Hnz].
  - by eexists.
  - rewrite _get_rect_surface_range by done.
    rewrite bool_decide_eq_true_2 by lia. by eexists.
Qed.

Lemma get_rect_surface_fails (n : Z) :
  ¬ (0 <= n <= 10)%Z → _get_rect_surface n = Raise ValueError.
Proof.
  intros Hn. rewrite _get_rect_surface_range by lia.
  by rewrite bool_decide_eq_false_2 by lia.
Qed.

Lemma shape_available_rect cfg :
  particle_type cfg = RECT →
  shape_available cfg = true ↔ (0 <= start_size cfg <= 10)%Z.
Proof.
  intros Hk. unfold shape_available. rewrite Hk.
  rewrite andb_true_iff, !Z.leb_le. tauto.
Qed.

Lemma shape_available_circle cfg :
  particle_type cfg = CIRCLE →
  shape_available cfg = true ↔ (1 <= start_size cfg <= 10)%Z.
Proof.
  intros Hk. unfold shape_available. rewrite Hk.
  rewrite andb_true_iff, !Z.leb_le. tauto.
Qed.

Lemma spawn_particle_total self tape :
  shape_available (Emitter.p_base self) = true →
  ∃ p tape', __spawn_particle self tape = Ok (after_spawn self [p], tape').
Proof.
  intros Hav. unfold __spawn_particle.
  destruct (random_uniform 0 (Vector2.x (Emitter.size self)) tape)
    as [rnd_x tape1].
  destruct (random_uniform 0 (Vector2.y (Emitter.size self)) tape1)
    as [rnd_y tape2].
  destruct (random_uniform (3 # 10) (6 # 10) tape2) as [freq tape3].
  destruct (random_uniform (6 # 10) (2 * math_pi) tape3) as [ph tape4].
  destruct (if random_x_dir (Emitter.p_base self)
            then random_choice (-1)%Z 1%Z tape4 else (1%Z, tape4))
    as [xdir tape5].
  destruct (if random_y_dir (Emitter.p_base self)
            then random_choice (-1)%Z 1%Z tape5 else (1%Z, tape5))
    as [ydir tape6].
  destruct (random_uniform 0 (random_velocity_deviation (Emitter.p_base self)) tape6)
    as [dev tape7].
  destruct (particle_type (Emitter.p_base self)) eqn:Hk.
  - apply shape_available_rect in Hav; [| done].
    destruct (get_rect_surface_ok _ Hav) as [s ->]. simpl. by eexists _, _.
  - apply shape_available_circle in Hav; [| done].
    rewrite _get_circle_surface_range, bool_decide_eq_true_2 by done.
    simpl. by eexists _, _.
  - simpl. by eexists _, _.
  - simpl. by eexists _, _.
Qed.

Lemma spawn_particle_fails self tape :
  shape_available (Emitter.p_base self) = false →
  __spawn_particle self tape = Raise ValueError.
Proof.
  intros Hav. unfold __spawn_particle.
  destruct (random_uniform 0 (Vector2.x (Emitter.size self)) tape)
    as [rnd_x tape1].
  destruct (random_uniform 0 (Vector2.y (Emitter.size self)) tape1)
    as [rnd_y tape2].
  destruct (random_uniform (3 # 10) (6 # 10) tape2) as [freq tape3].
  destruct (random_uniform (6 # 10) (2 * math_pi) tape3) as [ph tape4].
  destruct (if random_x_dir (Emitter.p_base self)
            then random_choice (-1)%Z 1%Z tape4 else (1%Z, tape4))
    as [xdir tape5].
  destruct (if random_y_dir (Emitter.p_base self)
            then random_choice (-1)%Z 1%Z tape5 else (1%Z, tape5))
    as [ydir tape6].
  destruct (random_uniform 0 (random_velocity_deviation (Emitter.p_base self)) tape6)
    as [dev tape7].
  destruct (particle_type (Emitter.p_base self)) eqn:Hk.
  - rewrite get_rect_surface_fails; [done |].
    rewrite <- (shape_available_rect _ Hk). congruence.
  - rewrite _get_circle_surface_range, bool_decide_eq_false_2; [done |].
    rewrite <- (shape_available_circle _ Hk). congruence.
  - unfold shape_available in Hav. by rewrite Hk in Hav.
  - unfold shape_available in Hav. by rewrite Hk in Hav.
Qed.

Lemma spawn_loop_total n : ∀ self tape,
  shape_available (Emitter.p_base self) = true →
  ∃ spawned tape',
    spawn_loop n self tape = Ok (after_spawn self spawned, tape')
    ∧ length spawned = n.
Proof.
  induction n as [| n IH]; intros self tape Hav.
  - exists [], tape. split; [| done]. simpl. do 2 f_equal.
    unfold after_spawn, Emitter.set_particle_count, Emitter.set_particles.
    destruct self. simpl. rewrite app_nil_r. f_equal. lia.
  - simpl. destruct (spawn_particle_total self tape Hav) as (p & tape1 & ->).
    simpl. destruct (IH (after_spawn self [p]) tape1 Hav)
      as (spawned & tape2 & -> & Hlen).
    exists (p :: spawned), tape2. split; [| simpl; lia].
    by rewrite after_spawn_app.
Qed.

(** X8.  [spawn_particle_group(amount)] appends exactly [amount] particles
    and adds as much to [particle_count] whenever the shape cache has
    the configured start shape; a negative [amount] behaves like 0; and
    when the cache lacks the shape (rectangle with [start_size] outside
    0..10, circle outside 1..10) any positive [amount] raises
    [ValueError]. *)
Theorem spawn_particle_group_adds_exactly_amount (amount : Z) self tape :
  (shape_available (Emitter.p_base self) = true ∨ (amount <= 0)%Z →
   ∃ spawned tape',
     spawn_particle_group amount self tape = Ok (after_spawn self spawned, tape')
     ∧ length spawned = Z.to_nat amount
     ∧ Emitter.particle_count (after_spawn self spawned)
       = (Emitter.particle_count self + Z.max amount 0)%Z)
  ∧ (shape_available (Emitter.p_base self) = false → (0 < amount)%Z →
     spawn_particle_group amount self tape = Raise ValueError).
Proof.
  unfold spawn_particle_group. split.
  - intros [Hav | Hneg].
    + destruct (spawn_loop_total (Z.to_nat amount) self tape Hav)
        as (spawned & tape' & Hrun & Hlen).
      exists spawned, tape'. split_and!; [done | done |].
      simpl. rewrite Hlen. lia.
    + replace (Z.to_nat amount) with 0 by lia.
      exists [], tape. split_and!; [| done | simpl; lia].
      simpl. do 2 f_equal.
      unfold after_spawn, Emitter.set_particle_count, Emitter.set_particles.
      destruct self. simpl. rewrite app_nil_r. f_equal. lia.
  - intros Hav Hpos.
    destruct (Z.to_nat amount) as [| n] eqn:E; [lia |].
    simpl. by rewrite spawn_particle_fails.
Qed.

Lemma spawn_particle_group_adds_exactly_amount_witness :
  (∃ spawned tape',
     spawn_particle_group 4
       (sample_emitter true (Vector2.mk 4 600) [] default_settings) []
     = Ok (after_spawn
             (sample_emitter true (Vector2.mk 4 600) [] default_settings)
             spawned, tape')
     ∧ length spawned = 4)
  ∧ spawn_particle_group 1
      (sample_emitter true (Vector2.mk 4 600) []
         (with_kind RECT ExampleSettings)) []
    = Raise ValueError.
Proof.
  split.
  - destruct (proj1 (spawn_particle_group_adds_exactly_amount 4
                       (sample_emitter true (Vector2.mk 4 600) []
                          default_settings) []))
      as (spawned & tape' & Hrun & Hlen & _); [left; reflexivity |].
    by exists spawned, tape'.
  - apply (proj2 (spawn_particle_group_adds_exactly_amount 1
                    (sample_emitter true (Vector2.mk 4 600) []
                       (with_kind RECT ExampleSettings)) []));
      [reflexivity | lia].
Defined.

Lemma random_choice_cases {A} (first second : A) tape :
  (random_choice first second tape).1 = first
  ∨ (random_choice first second tape).1 = second.
Proof.
  unfold random_choice. destruct (_randbelow 2 tape) as [k rest]. simpl.
  destruct (k =? 0)%Z; tauto.
Qed.

(** X9.  What a freshly spawned particle looks like, whatever the generator
    does: it starts at age 0 with the configured lifetime, colour, size
    and alpha and without glow; its frequency lies in [0.3, 0.6) and its
    phase in [0.6, 2 pi); its vertical velocity is the configured one up
    to sign (the sign flips only when [random_y_dir] is set); its
    horizontal velocity is the configured one up to sign plus a
    deviation drawn from [0, random_velocity_deviation). *)
Theorem spawned_particle_state self tape self' tape' :
  __spawn_particle self tape = Ok (self', tape') →
  let cfg := Emitter.p_base self in
  ∃ p, self' = after_spawn self [p]
    ∧ Particle.time_elapsed p = 0%Q
    ∧ Particle.direction p = 1%Z
    ∧ Particle.gsurf p = None
    ∧ Particle.color p = color_start cfg
    ∧ Particle.size p = inject_Z (start_size cfg)
    ∧ Particle.alpha p = inject_Z (start_alpha cfg)
    ∧ (Particle.lifetime p == lifetime cfg)%Q
    ∧ ((3 # 10) <= Particle.frequency p)%Q ∧ (Particle.frequency p < (6 # 10))%Q
    ∧ ((6 # 10) <= Particle.phase p)%Q ∧ (Particle.phase p < 2 * math_pi)%Q
    ∧ (∃ sign, (sign = 1 ∨ sign = (-1))%Z
         ∧ (random_y_dir cfg = false → sign = 1%Z)
         ∧ Vector2.y (Particle.velocity p)
           = (particle_velocity_y cfg * inject_Z sign)%Q)
    ∧ (∃ sign dev, (sign = 1 ∨ sign = (-1))%Z
         ∧ (random_x_dir cfg = false → sign = 1%Z)
         ∧ Vector2.x (Particle.velocity p)
           = (particle_velocity_x cfg * inject_Z sign + dev)%Q
         ∧ ((0 < random_velocity_deviation cfg)%Q →
            (0 <= dev)%Q ∧ (dev < random_velocity_deviation cfg)%Q)
         ∧ ((random_velocity_deviation cfg == 0)%Q → (dev == 0)%Q)).
Proof.
  cbv zeta. unfold __spawn_particle.
  destruct (random_uniform 0 (Vector2.x (Emitter.size self)) tape)
    as [rnd_x tape1].
  destruct (random_uniform 0 (Vector2.y (Emitter.size self)) tape1)
    as [rnd_y tape2].
  pose proof (random_uniform_within (3 # 10) (6 # 10) tape2 ltac:(lra)) as Hf.
  destruct (random_uniform (3 # 10) (6 # 10) tape2) as [freq tape3].
  assert (Hpi : ((6 # 10) < 2 * math_pi)%Q) by reflexivity.
  pose proof (random_uniform_within (6 # 10) (2 * math_pi) tape3 Hpi) as Hp.
  destruct (random_uniform (6 # 10) (2 * math_pi) tape3) as [ph tape4].
  assert (Hxd : ∃ xdir tape5,
            (if random_x_dir (Emitter.p_base self)
             then random_choice (-1)%Z 1%Z tape4 else (1%Z, tape4))
            = (xdir, tape5)
            ∧ (xdir = 1 ∨ xdir = -1)%Z
            ∧ (random_x_dir (Emitter.p_base self) = false → xdir = 1%Z)).
  { destruct (random_x_dir (Emitter.p_base self)).
    - pose proof (random_choice_cases (-1)%Z 1%Z tape4) as Hc.
      destruct (random_choice (-1)%Z 1%Z tape4) as [d tp]. simpl in Hc.
      exists d, tp. split_and!; [done | tauto | done].
    - exists 1%Z, tape4. split_and!; [done | tauto | done]. }
  destruct Hxd as (xdir & tape5 & -> & Hxdir & Hxoff).
  assert (Hyd : ∃ ydir tape6,
            (if random_y_dir (Emitter.p_base self)
             then random_choice (-1)%Z 1%Z tape5 else (1%Z, tape5))
            = (ydir, tape6)
            ∧ (ydir = 1 ∨ ydir = -1)%Z
            ∧ (random_y_dir (Emitter.p_base self) = false → ydir = 1%Z)).
  { destruct (random_y_dir (Emitter.p_base self)).
    - pose proof (random_choice_cases (-1)%Z 1%Z tape5) as Hc.
      destruct (random_choice (-1)%Z 1%Z tape5) as [d tp]. simpl in Hc.
      exists d, tp. split_and!; [done | tauto | done].
    - exists 1%Z, tape5. split_and!; [done | tauto | done]. }
  destruct Hyd as (ydir & tape6 & -> & Hydir & Hyoff).
  pose proof (random_uniform_within 0
                (random_velocity_deviation (Emitter.p_base self)) tape6) as Hd.
  pose proof (random_uniform_degenerate 0
                (random_velocity_deviation (Emitter.p_base self)) tape6) as Hz.
  destruct (random_uniform 0 (random_velocity_deviation (Emitter.p_base self)) tape6)
    as [dev tape7].
  simpl in Hf, Hp, Hd, Hz.
  match goal with
  | |- (?m ≫= _) = _ → _ => destruct m as [psurf |]; [| discriminate]
  end.
  simpl. intros [= <- <-]. eexists. split; [reflexivity |]. simpl.
  split_and!; try done; try tauto.
  - ring.
  - by exists ydir.
  - exists xdir, dev. split_and!; done.
Qed.

Lemma spawned_particle_state_witness :
  ∃ self' tape' p,
    __spawn_particle
      (sample_emitter true (Vector2.mk 4 600) [] ExampleSettings)
      [(1 # 2)%Q; (1 # 3)%Q; (1 # 4)%Q; (1 # 5)%Q; (1 # 6)%Q] = Ok (self', tape')
    ∧ Emitter.particles self' = [p]
    ∧ ((3 # 10) <= Particle.frequency p)%Q
    ∧ (Particle.frequency p < (6 # 10))%Q.
Proof.
  destruct (__spawn_particle
              (sample_emitter true (Vector2.mk 4 600) [] ExampleSettings)
              [(1 # 2)%Q; (1 # 3)%Q; (1 # 4)%Q; (1 # 5)%Q; (1 # 6)%Q])
    as [[self' tape'] |] eqn:Hrun; [| vm_compute in Hrun; discriminate].
  destruct (spawned_particle_state _ _ _ _ Hrun) as (p & -> & Hrest).
  destruct Hrest as (_ & _ & _ & _ & _ & _ & _ & Hlo & Hhi & _).
  eexists _, tape', p. split_and!; done.
Defined.

(** ** What a frame changes and what it leaves alone *)

Section FrameState.
Context `{Externals}.

Lemma update_unfold dt self tape :
  update dt self tape
  = '(mid, tape1) ←
      (if Emitter.is_active self then
         match spawn_type (Emitter.p_base self) with
         | AUTO => __update_auto (begin_frame dt self) tape
         | EVENT => __update_spawn (begin_frame dt self) tape
         end
       else Ok (begin_frame dt self, tape));
    __update_particles dt mid tape1.
Proof. reflexivity. Qed.

Lemma update_phases dt self tape res :
  update dt self tape = Ok res →
  ∃ mid tape1 spawned,
    __update_particles dt mid tape1 = Ok res
    ∧ ((mid = begin_frame dt self ∧ spawned = [])
       ∨ (Emitter.is_active self = true
          ∧ spawn_type (Emitter.p_base self) = AUTO
          ∧ mid = Emitter.set_spawn_timer 0
                    (after_spawn (begin_frame dt self) spawned))).
Proof.
  rewrite update_unfold.
  destruct (if Emitter.is_active self then _ else _)
    as [[mid tape1] |] eqn:Hspawn; [| discriminate].
  simpl. intros Hrun. exists mid, tape1.
  destruct (Emitter.is_active self).
  - destruct (spawn_type (Emitter.p_base self)).
    + apply update_auto_Ok in Hspawn. cbv zeta in Hspawn.
      destruct (_ && _)%bool.
      * destruct Hspawn as (spawned & _ & ->). exists spawned.
        split; [exact Hrun |]. by right.
      * subst mid. exists []. split; [exact Hrun |]. by left.
    + unfold __update_spawn in Hspawn. injection Hspawn as <- <-.
      exists []. split; [exact Hrun |]. by left.
  - injection Hspawn as <- <-. exists []. split; [exact Hrun |]. by left.
Qed.

Lemma particle_loop_frame_fields fuel : ∀ dt i self tape self' tape',
  particle_loop fuel dt i self tape = Ok (self', tape') →
  self' = Emitter.set_blit_list (Emitter.blit_list self')
            (Emitter.set_particles (Emitter.particles self') self).
Proof.
  induction fuel as [| fuel IH]; intros dt i self tape self' tape' Hrun.
  - injection Hrun as <- <-. by destruct self.
  - simpl in Hrun.
    destruct (Emitter.particles self !! i) as [p |];
      [| injection Hrun as <- <-; by destruct self].
    destruct (loop_body dt i p self tape) as [[self1 tape1] |] eqn:Hbody;
      [| discriminate].
    simpl in Hrun. apply IH in Hrun.
    apply loop_body_Ok in Hbody as (final & ps & gs & _ & _ & ->).
    rewrite Hrun. by destruct self.
Qed.

Lemma update_particles_frame_fields dt self tape self' tape' :
  __update_particles dt self tape = Ok (self', tape') →
  self' = Emitter.set_blit_list (Emitter.blit_list self')
            (Emitter.set_particles (Emitter.particles self') self).
Proof.
  unfold __update_particles.
  destruct (room_filter self (Emitter.particles self)) as [kept |];
    [| discriminate].
  simpl. intros Hrun. apply particle_loop_frame_fields in Hrun.
  rewrite Hrun. by destruct self.
Qed.

(** X10.  [update] never moves or reconfigures the emitter: position, size,
    room dimensions, master clock, active flag and settings come out as
    they went in, the emitter clock advances by exactly [dt], the glow
    batch is empty, the spawn timer has either gained [dt] or been reset
    to 0, and [particle_count] never goes down. *)
Theorem update_leaves_the_emitter_in_place dt self tape self' tape' :
  update dt self tape = Ok (self', tape') →
  Emitter.position self' = Emitter.position self
  ∧ Emitter.size self' = Emitter.size self
  ∧ Emitter.dimensions self' = Emitter.dimensions self
  ∧ Emitter.master_clock self' = Emitter.master_clock self
  ∧ Emitter.is_active self' = Emitter.is_active self
  ∧ Emitter.p_base self' = Emitter.p_base self
  ∧ Emitter.time_elapsed self' = (Emitter.time_elapsed self + dt)%Q
  ∧ Emitter.glow_blit_list self' = []
  ∧ (Emitter.spawn_timer self' = (Emitter.spawn_timer self + dt)%Q
     ∨ Emitter.spawn_timer self' = 0%Q)
  ∧ (Emitter.particle_count self <= Emitter.particle_count self')%Z.
Proof.
  intros Hrun.
  apply update_phases in Hrun as (mid & tape1 & spawned & Hrun & Hmid).
  apply update_particles_frame_fields in Hrun. rewrite Hrun. simpl.
  destruct Hmid as [[-> ->] | (_ & _ & ->)]; simpl;
    split_and!; try done; try tauto; lia.
Qed.


(** *** How many particles and batch entries a frame can leave *)

Lemma particle_loop_bounds fuel : ∀ dt i self tape self' tape',
  particle_loop fuel dt i self tape = Ok (self', tape') →
  length (Emitter.particles self') ≤ length (Emitter.particles self)
  ∧ length (Emitter.blit_list self')
    ≤ length (Emitter.blit_list self) + (length (Emitter.particles self) - i).
Proof.
  induction fuel as [| fuel IH]; intros dt i self tape self' tape' Hrun.
  - injection Hrun as <- <-. lia.
  - simpl in Hrun.
    destruct (Emitter.particles self !! i) as [p |] eqn:Hi;
      [| injection Hrun as <- <-; lia].
    destruct (loop_body dt i p self tape) as [[self1 tape1] |] eqn:Hbody;
      [| discriminate].
    simpl in Hrun. apply IH in Hrun as [Hl Hb].
    pose proof (loop_body_length _ _ _ _ _ _ _ Hbody) as Hlen.
    apply lookup_lt_Some in Hi.
    apply loop_body_Ok in Hbody as (final & ps & gs & _ & _ & ->).
    simpl in *. rewrite length_app in Hb. simpl in Hb. lia.
Qed.

(** X11.  A frame draws at most one batch entry per particle that entered it
    and leaves at most as many particles as entered it, counting the
    particles spawned in the frame; [particle_count] grows by exactly
    the number spawned. *)
Theorem update_batch_and_live_list_bounds dt self tape self' tape' :
  update dt self tape = Ok (self', tape') →
  ∃ spawned : list Particle.t,
    Emitter.particle_count self'
    = (Emitter.particle_count self + Z.of_nat (length spawned))%Z
    ∧ length (Emitter.particles self')
      ≤ length (Emitter.particles self) + length spawned
    ∧ length (Emitter.blit_list self')
      ≤ length (Emitter.particles self) + length spawned.
Proof.
  intros Hrun.
  apply update_phases in Hrun as (mid & tape1 & spawned & Hrun & Hmid).
  exists spawned.
  pose proof (update_particles_frame_fields _ _ _ _ _ Hrun) as Hfields.
  unfold __update_particles in Hrun.
  destruct (room_filter mid (Emitter.particles mid)) as [kept |] eqn:Hf;
    [| discriminate].
  simpl in Hrun. apply particle_loop_bounds in Hrun as [Hl Hb].
  apply room_filter_sublist, sublist_length in Hf. simpl in Hl, Hb.
  assert (Hmid' : Emitter.particle_count mid
                  = (Emitter.particle_count self + Z.of_nat (length spawned))%Z
                  ∧ length (Emitter.particles mid)
                    = length (Emitter.particles self) + length spawned
                  ∧ Emitter.blit_list mid = []).
  { destruct Hmid as [[-> ->] | (_ & _ & ->)]; simpl;
      rewrite ?length_app; split_and!; (done || lia). }
  destruct Hmid' as (Hpc & Hlen & Hblit).
  rewrite Hfields. simpl. rewrite Hblit in Hb. simpl in Hb. lia.
Qed.


End FrameState.

Lemma update_leaves_the_emitter_in_place_witness :
  ∃ self' tape',
    update (H := reference_externals) (1 # 10)
      (sample_emitter true (Vector2.mk 0 0) [] auto_scenario) [99%Q]
    = Ok (self', tape')
    ∧ Emitter.p_base self' = auto_scenario
    ∧ Emitter.time_elapsed self' = (0 + (1 # 10))%Q.
Proof.
  destruct (update (H := reference_externals) (1 # 10)
              (sample_emitter true (Vector2.mk 0 0) [] auto_scenario) [99%Q])
    as [[self' tape'] |] eqn:Hrun; [| vm_compute in Hrun; discriminate].
  destruct (update_leaves_the_emitter_in_place (H := reference_externals)
              (1 # 10) (sample_emitter true (Vector2.mk 0 0) [] auto_scenario)
              [99%Q] self' tape' Hrun)
    as (_ & _ & _ & _ & _ & Hcfg & Hte & _).
  exists self', tape'. split_and!; done.
Defined.

Lemma update_batch_and_live_list_bounds_witness :
  ∃ self' tape',
    update (H := reference_externals) (1 # 10)
      (sample_emitter true (Vector2.mk 0 0) [] auto_scenario) [99%Q]
    = Ok (self', tape')
    ∧ length (Emitter.blit_list self') ≤ Z.to_nat (Emitter.particle_count self').
Proof.
  destruct (update (H := reference_externals) (1 # 10)
              (sample_emitter true (Vector2.mk 0 0) [] auto_scenario) [99%Q])
    as [[self' tape'] |] eqn:Hrun; [| vm_compute in Hrun; discriminate].
  destruct (update_batch_and_live_list_bounds (H := reference_externals)
              (1 # 10) (sample_emitter true (Vector2.mk 0 0) [] auto_scenario)
              [99%Q] self' tape' Hrun)
    as (spawned & Hpc & _ & Hb).
  exists self', tape'. split; [done |]. rewrite Hpc. simpl in *. lia.
Defined.

(** ** What is fixed at spawn time stays fixed *)

Section SpawnConstants.
Context `{Externals}.

Lemma interpolate_attributes_spawn_constants cfg p final :
  interpolate_attributes cfg p = Ok final →
  spawn_constants final = spawn_constants p.
Proof.
  unfold interpolate_attributes.
  destruct (py_truediv _ _) as [ratio |]; [| discriminate]. simpl.
  destruct (interpolate_color _ _ _) as [c |]; [| discriminate]. simpl.
  by intros [= <-].
Qed.

Lemma loop_body_spawn_constants dt i p self tape self' tape' :
  Emitter.particles self !! i = Some p →
  loop_body dt i p self tape = Ok (self', tape') →
  (spawn_constants <$> Emitter.particles self')
    `sublist_of` (spawn_constants <$> Emitter.particles self).
Proof.
  intros Hi Hrun.
  apply loop_body_Ok in Hrun as (final & ps & gs & Hint & _ & ->). simpl.
  apply interpolate_attributes_spawn_constants in Hint.
  destruct (settle_fmap spawn_constants (Emitter.particles self) i p
              (aged self dt p)
              (Particle.set_gsurf gs (Particle.set_surf ps final)) Hi)
    as [-> | [j ->]]; [reflexivity | exact Hint | reflexivity |].
  apply sublist_delete.
Qed.

Lemma particle_loop_spawn_constants fuel : ∀ dt i self tape self' tape',
  particle_loop fuel dt i self tape = Ok (self', tape') →
  (spawn_constants <$> Emitter.particles self')
    `sublist_of` (spawn_constants <$> Emitter.particles self).
Proof.
  induction fuel as [| fuel IH]; intros dt i self tape self' tape' Hrun.
  - by injection Hrun as <- <-.
  - simpl in Hrun.
    destruct (Emitter.particles self !! i) as [p |] eqn:Hi;
      [| by injection Hrun as <- <-].
    destruct (loop_body dt i p self tape) as [[self1 tape1] |] eqn:Hbody;
      [| discriminate].
    simpl in Hrun. etrans; [by eapply IH |].
    by eapply loop_body_spawn_constants.
Qed.

Lemma update_particles_spawn_constants dt self tape self' tape' :
  __update_particles dt self tape = Ok (self', tape') →
  (spawn_constants <$> Emitter.particles self')
    `sublist_of` (spawn_constants <$> Emitter.particles self).
Proof.
  unfold __update_particles.
  destruct (room_filter self (Emitter.particles self)) as [kept |] eqn:Hf;
    [| discriminate].
  simpl. intros Hrun. apply particle_loop_spawn_constants in Hrun.
  etrans; [exact Hrun |]. simpl.
  by apply fmap_sublist, room_filter_sublist with self.
Qed.


(** X13.  An emitter that is switched off, or whose spawn mode is [EVENT],
    spawns nothing in [update]: [particle_count] is unchanged, the spawn
    timer just accumulates [dt], and every particle alive afterwards was
    alive before (the live list can only shrink). *)
Theorem update_without_automatic_spawning dt self tape self' tape' :
  Emitter.is_active self = false ∨ spawn_type (Emitter.p_base self) = EVENT →
  update dt self tape = Ok (self', tape') →
  Emitter.particle_count self' = Emitter.particle_count self
  ∧ Emitter.spawn_timer self' = (Emitter.spawn_timer self + dt)%Q
  ∧ (spawn_constants <$> Emitter.particles self')
      `sublist_of` (spawn_constants <$> Emitter.particles self)
  ∧ length (Emitter.particles self') ≤ length (Emitter.particles self).
Proof.
  intros Hoff Hrun.
  apply update_phases in Hrun as (mid & tape1 & spawned & Hrun & Hmid).
  destruct Hmid as [[-> ->] | (Hact & Hauto & _)];
    [| destruct Hoff; congruence].
  pose proof (update_particles_frame_fields _ _ _ _ _ Hrun) as Hfields.
  apply update_particles_spawn_constants in Hrun.
  split_and!.
  - by rewrite Hfields.
  - by rewrite Hfields.
  - exact Hrun.
  - apply sublist_length in Hrun. by rewrite !length_fmap in Hrun.
Qed.

End SpawnConstants.


Lemma update_without_automatic_spawning_witness :
  ∃ self' tape',
    update (H := reference_externals) (1 # 10)
      (set_state false (sample_emitter true (Vector2.mk 0 0)
                          [sample_particle 1 0 1] auto_scenario)) [0%Q]
    = Ok (self', tape')
    ∧ Emitter.particle_count self' = 0%Z
    ∧ length (Emitter.particles self') ≤ 1.
Proof.
  destruct (update (H := reference_externals) (1 # 10)
              (set_state false (sample_emitter true (Vector2.mk 0 0)
                                  [sample_particle 1 0 1] auto_scenario)) [0%Q])
    as [[self' tape'] |] eqn:Hrun; [| vm_compute in Hrun; discriminate].
  destruct (update_without_automatic_spawning (H := reference_externals)
              (1 # 10)
              (set_state false (sample_emitter true (Vector2.mk 0 0)
                                  [sample_particle 1 0 1] auto_scenario))
              [0%Q] self' tape' (or_introl eq_refl) Hrun)
    as (Hpc & _ & _ & Hlen).
  exists self', tape'. split_and!; done.
Defined.

(** ** The automatic spawn gate *)

Lemma Qle_bool_false u v : Qle_bool u v = false ↔ (v < u)%Q.
Proof.
  split.
  - intros E. apply Qnot_le_lt. rewrite <- Qle_bool_iff. congruence.
  - intros Hlt. destruct (Qle_bool u v) eqn:E; [| done].
    apply Qle_bool_iff in E. lra.
Qed.

Lemma Qlt_bool_true u v : Qlt_bool u v = true ↔ (u < v)%Q.
Proof. unfold Qlt_bool. rewrite negb_true_iff. apply Qle_bool_false. Qed.

Lemma Qlt_bool_false u v : Qlt_bool u v = false ↔ (v <= u)%Q.
Proof. unfold Qlt_bool. rewrite negb_false_iff. apply Qle_bool_iff. Qed.

(** X14.  [__update_auto] in its three regimes.  Before the timer reaches the
    delay nothing happens and no random number is drawn.  At or past
    the delay one number is drawn; with a chance of 0 or less it never
    passes, so the emitter is left as it is and the timer keeps its
    value; with a chance above 100 it always passes, so [spawn_rate]
    particles are spawned and the timer is reset. *)
Theorem auto_spawn_gate self tape :
  let cfg := Emitter.p_base self in
  ((Emitter.spawn_timer self < spawn_delay cfg)%Q →
   __update_auto self tape = Ok (self, tape))
  ∧ ((spawn_delay cfg <= Emitter.spawn_timer self)%Q →
     (particle_chance cfg <= 0)%Q →
     __update_auto self tape = Ok (self, (random_randint 0 100 tape).2))
  ∧ ((spawn_delay cfg <= Emitter.spawn_timer self)%Q →
     (100 < particle_chance cfg)%Q →
     shape_available cfg = true →
     ∃ spawned tape',
       __update_auto self tape
       = Ok (Emitter.set_spawn_timer 0 (after_spawn self spawned), tape')
       ∧ length spawned = Z.to_nat (spawn_rate cfg)).
Proof.
  cbv zeta. unfold __update_auto. split_and!.
  - intros Hlt. by rewrite (proj2 (Qle_bool_false _ _) Hlt).
  - intros Hle Hch. rewrite (proj2 (Qle_bool_iff _ _) Hle).
    pose proof (random_randint_range tape) as Hr.
    destruct (random_randint 0 100 tape) as [n tape1]. simpl in Hr. simpl.
    rewrite (proj2 (Qlt_bool_false _ _)); [done |].
    assert (Hn : (0 <= inject_Z n)%Q).
    { change 0%Q with (inject_Z 0). rewrite <- Zle_Qle. lia. }
    lra.
  - intros Hle Hch Hav. rewrite (proj2 (Qle_bool_iff _ _) Hle).
    pose proof (random_randint_range tape) as Hr.
    destruct (random_randint 0 100 tape) as [n tape1]. simpl in Hr.
    rewrite (proj2 (Qlt_bool_true _ _)).
    2:{ assert (Hn : (inject_Z n <= 100)%Q).
        { change 100%Q with (inject_Z 100). rewrite <- Zle_Qle. lia. }
        lra. }
    unfold __spawn_particle_rate.
    destruct (spawn_loop_total (Z.to_nat (spawn_rate (Emitter.p_base self)))
                self tape1 Hav) as (spawned & tape2 & -> & Hlen).
    simpl. by exists spawned, tape2.
Qed.

Lemma auto_spawn_gate_witness :
  __update_auto (sample_emitter true (Vector2.mk 0 0) [] auto_scenario) [7%Q]
  = Ok (sample_emitter true (Vector2.mk 0 0) [] auto_scenario, [7%Q]).
Proof.
  apply (proj1 (auto_spawn_gate
                  (sample_emitter true (Vector2.mk 0 0) [] auto_scenario)
                  [7%Q])).
  reflexivity.
Defined.

(** ** Frames in which nothing expires *)

Section QuietFrames.
Context `{Externals}.

Lemma settle_alive l i old new :
  Qle_bool (Particle.lifetime old) (Particle.time_elapsed old) = false →
  settle l i old new = <[i := new]> l.
Proof. intros Hal. unfold settle. rewrite Hal. apply list_insert_insert_eq. Qed.

Lemma loop_body_alive dt i p self tape self' tape' :
  Emitter.particles self !! i = Some p →
  expires dt p = false →
  loop_body dt i p self tape = Ok (self', tape') →
  ∃ shown entry,
    Emitter.particles self' = <[i := shown]> (Emitter.particles self)
    ∧ Emitter.blit_list self' = Emitter.blit_list self ++ [entry]
    ∧ spawn_constants shown = spawn_constants p
    ∧ Particle.time_elapsed shown
      = (Particle.time_elapsed p + py_max dt min_dt)%Q.
Proof.
  intros Hi Hal Hrun.
  apply loop_body_Ok in Hrun as (final & ps & gs & Hint & _ & ->).
  pose proof (interpolate_attributes_spawn_constants _ _ _ Hint) as Hconst.
  apply interpolate_attributes_Ok in Hint as (ratio & _ & Hattrs).
  cbv zeta in Hattrs. destruct Hattrs as (_ & _ & _ & _ & Hte).
  eexists _, _. simpl. split_and!.
  - apply settle_alive. by rewrite aged_expires.
  - reflexivity.
  - exact Hconst.
  - simpl. by rewrite Hte.
Qed.

Lemma particle_loop_no_expiry fuel : ∀ dt i self tape self' tape',
  Forall (λ p, expires dt p = false) (drop i (Emitter.particles self)) →
  length (Emitter.particles self) - i ≤ fuel →
  particle_loop fuel dt i self tape = Ok (self', tape') →
  length (Emitter.particles self') = length (Emitter.particles self)
  ∧ take i (Emitter.particles self') = take i (Emitter.particles self)
  ∧ Particle.time_elapsed <$> drop i (Emitter.particles self')
    = (λ p, (Particle.time_elapsed p + py_max dt min_dt)%Q)
        <$> drop i (Emitter.particles self)
  ∧ spawn_constants <$> Emitter.particles self'
    = spawn_constants <$> Emitter.particles self
  ∧ length (Emitter.blit_list self')
    = length (Emitter.blit_list self) + (length (Emitter.particles self) - i).
Proof.
  induction fuel as [| fuel IH]; intros dt i self tape self' tape' Hal Hlen Hrun.
  - injection Hrun as <- <-.
    rewrite !drop_ge by lia. split_and!; (done || lia).
  - simpl in Hrun.
    destruct (Emitter.particles self !! i) as [p |] eqn:Hi.
    2:{ injection Hrun as <- <-. apply lookup_ge_None in Hi.
        rewrite !drop_ge by lia. split_and!; (done || lia). }
    destruct (loop_body dt i p self tape) as [[self1 tape1] |] eqn:Hbody;
      [| discriminate].
    simpl in Hrun.
    rewrite (drop_S _ _ _ Hi) in Hal. apply Forall_cons in Hal as [Hp Hrest].
    destruct (loop_body_alive _ _ _ _ _ _ _ Hi Hp Hbody)
      as (shown & entry & Hl1 & Hb1 & Hc1 & Ht1).
    pose proof (lookup_lt_Some _ _ _ Hi) as Hlt.
    assert (Hlen1 : length (Emitter.particles self1)
                    = length (Emitter.particles self))
      by (by rewrite Hl1, length_insert).
    destruct (IH dt (S i) self1 tape1 self' tape') as (Hl & Htk & Hte & Hc & Hb).
    + rewrite Hl1, drop_insert_lt by lia. exact Hrest.
    + lia.
    + exact Hrun.
    + assert (Hat : Emitter.particles self' !! i = Some shown).
      { rewrite <- (lookup_take_lt _ (S i)) by lia.
        rewrite Htk, lookup_take_lt by lia.
        rewrite Hl1. by apply list_lookup_insert_eq. }
      split_and!.
      * lia.
      * assert (Hmin : ∀ l : list Particle.t, take i l = take i (take (S i) l)).
        { intros l. rewrite take_take. f_equal. lia. }
        rewrite (Hmin (Emitter.particles self')), Htk, <- Hmin, Hl1.
        apply take_insert_ge. lia.
      * rewrite (drop_S _ _ _ Hat), (drop_S _ _ _ Hi), !fmap_cons.
        rewrite Ht1, Hte, Hl1.
        by rewrite drop_insert_lt by lia.
      * rewrite Hc, Hl1, list_fmap_insert, Hc1.
        apply list_insert_id. by rewrite list_lookup_fmap, Hi.
      * rewrite Hb, Hb1, length_app, Hlen1. simpl. lia.
Qed.

Lemma room_filter_all_inside self rc l :
  room_rect self = Ok rc →
  Forall (λ p, collidepoint rc (Particle.position p) = true) l →
  room_filter self l = Ok l.
Proof.
  intros Hrc. induction 1 as [| p l Hp _ IH]; [reflexivity |].
  simpl. rewrite Hrc, IH. simpl. by rewrite Hp.
Qed.

(** X15.  A frame in which every particle is in the room and none reaches its
    lifetime processes every particle exactly once: the live list keeps
    its length and order, every particle has aged by [max(dt, 1/240)],
    none has changed its spawn-time constants, and the draw batch has
    gained one entry per particle. *)
Theorem quiet_frame_processes_every_particle dt self tape self' tape' rc :
  room_rect self = Ok rc →
  Forall (λ p, collidepoint rc (Particle.position p) = true)
         (Emitter.particles self) →
  Forall (λ p, expires dt p = false) (Emitter.particles self) →
  __update_particles dt self tape = Ok (self', tape') →
  length (Emitter.particles self') = length (Emitter.particles self)
  ∧ Particle.time_elapsed <$> Emitter.particles self'
    = (λ p, (Particle.time_elapsed p + py_max dt min_dt)%Q)
        <$> Emitter.particles self
  ∧ spawn_constants <$> Emitter.particles self'
    = spawn_constants <$> Emitter.particles self
  ∧ length (Emitter.blit_list self')
    = length (Emitter.blit_list self) + length (Emitter.particles self).
Proof.
  intros Hrc Hin Hal. unfold __update_particles.
  rewrite (room_filter_all_inside _ _ _ Hrc Hin). simpl. intros Hrun.
  apply particle_loop_no_expiry in Hrun as (Hl & _ & Hte & Hc & Hb).
  - simpl in *. rewrite Nat.sub_0_r in Hb. split_and!; done.
  - exact Hal.
  - simpl. lia.
Qed.

End QuietFrames.

Lemma quiet_frame_processes_every_particle_witness :
  ∃ self' tape',
    __update_particles (H := reference_externals) (1 # 10)
      (sample_emitter false (Vector2.mk 0 0)
         [sample_particle 1 0 1; sample_particle 2 (1 # 2) 1] default_settings)
      [] = Ok (self', tape')
    ∧ length (Emitter.particles self') = 2
    ∧ length (Emitter.blit_list self') = 2.
Proof.
  destruct (__update_particles (H := reference_externals) (1 # 10)
              (sample_emitter false (Vector2.mk 0 0)
                 [sample_particle 1 0 1; sample_particle 2 (1 # 2) 1]
                 default_settings) [])
    as [[self' tape'] |] eqn:Hrun; [| vm_compute in Hrun; discriminate].
  destruct (quiet_frame_processes_every_particle (H := reference_externals)
              (1 # 10)
              (sample_emitter false (Vector2.mk 0 0)
                 [sample_particle 1 0 1; sample_particle 2 (1 # 2) 1]
                 default_settings) [] self' tape' (mkRect 0 0 64 64)
              eq_refl)
    as (Hl & _ & _ & Hb).
  - repeat constructor.
  - repeat constructor.
  - exact Hrun.
  - exists self', tape'. split_and!; done.
Defined.

(** ** Frames that cannot fail *)

Section Steady.
Context `{Externals}.

Lemma aged_profile self dt p : profile (aged self dt p) = profile p.
Proof. reflexivity. Qed.

Lemma steady_profile cfg p q : profile p = profile q → steady cfg q → steady cfg p.
Proof.
  unfold profile, spawn_constants, steady. intros Heq [Hc Hl].
  injection Heq as _ _ _ _ _ Hlife Hcol. by rewrite Hcol, Hlife.
Qed.

Lemma moving_left_profile p q :
  profile p = profile q → moving_left q → moving_left p.
Proof.
  unfold profile, spawn_constants, moving_left. intros Heq Hq.
  injection Heq as _ Hvel _ _ _ _ _. by rewrite Hvel.
Qed.

Lemma profile_sublist_Forall (P : Particle.t → Prop) l' l :
  (∀ p q, profile p = profile q → P q → P p) →
  (profile <$> l') `sublist_of` (profile <$> l) →
  Forall P l → Forall P l'.
Proof.
  intros Hext Hsub Hall. apply Forall_forall. intros p Hp.
  apply (list_elem_of_fmap_2 profile) in Hp.
  apply (elem_of_sublist _ _ _ Hp) in Hsub.
  apply list_elem_of_fmap_1 in Hsub as (q & Heq & Hq).
  rewrite Forall_forall in Hall. by apply (Hext p q), Hall.
Qed.

Lemma Forall_sublist_of {A} (P : A → Prop) (kept l : list A) :
  kept `sublist_of` l → Forall P l → Forall P kept.
Proof.
  intros Hsub Hall. apply Forall_forall. intros x Hx.
  rewrite Forall_forall in Hall. by eapply Hall, elem_of_sublist.
Qed.

Lemma interpolate_attributes_steady cfg p :
  valid_color (color_end cfg) → steady cfg p →
  ∃ final, interpolate_attributes cfg p = Ok final ∧ profile final = profile p.
Proof.
  intros (Hr & Hg & Hb & Ha) [Hc Hl]. unfold interpolate_attributes.
  rewrite (py_truediv_nonzero _ _ Hl). simpl. rewrite Hc.
  unfold interpolate_color.
  rewrite (py_int_inject _ (Color.r (color_end cfg))) by ring.
  rewrite (py_int_inject _ (Color.g (color_end cfg))) by ring.
  rewrite (py_int_inject _ (Color.b (color_end cfg))) by ring.
  rewrite (py_int_inject _ (Color.a (color_end cfg))) by ring.
  rewrite pygame_Color_valid by done. simpl.
  eexists. split; [reflexivity |].
  unfold profile, spawn_constants. simpl. rewrite Hc.
  by destruct (color_end cfg).
Qed.

Lemma loop_body_steady dt i p self tape :
  particle_type (Emitter.p_base self) = ANIMATION
  ∨ particle_type (Emitter.p_base self) = LINE →
  valid_color (color_end (Emitter.p_base self)) →
  Emitter.particles self !! i = Some p →
  steady (Emitter.p_base self) p →
  ∃ self',
    loop_body dt i p self tape = Ok (self', tape)
    ∧ Emitter.p_base self' = Emitter.p_base self
    ∧ (profile <$> Emitter.particles self')
        `sublist_of` (profile <$> Emitter.particles self).
Proof.
  intros Hkind Hvalid Hi Hp. rewrite loop_body_unfold.
  destruct (interpolate_attributes_steady (Emitter.p_base self)
              (aged self dt p) Hvalid) as (final & -> & Hfinal).
  { by apply (steady_profile _ _ p), Hp. }
  simpl. rewrite (resync_shape_stub _ _ _ Hkind). simpl.
  eexists. split; [reflexivity |]. split; [reflexivity |]. simpl.
  destruct (settle_fmap profile (Emitter.particles self) i p
              (aged self dt p)
              (Particle.set_gsurf None (Particle.set_surf None final)) Hi)
    as [-> | [j ->]];
    [reflexivity | exact Hfinal | reflexivity | apply sublist_delete].
Qed.

Lemma particle_loop_steady fuel : ∀ dt i self tape,
  particle_type (Emitter.p_base self) = ANIMATION
  ∨ particle_type (Emitter.p_base self) = LINE →
  valid_color (color_end (Emitter.p_base self)) →
  Forall (steady (Emitter.p_base self)) (Emitter.particles self) →
  ∃ self',
    particle_loop fuel dt i self tape = Ok (self', tape)
    ∧ (profile <$> Emitter.particles self')
        `sublist_of` (profile <$> Emitter.particles self).
Proof.
  induction fuel as [| fuel IH]; intros dt i self tape Hkind Hvalid Hall.
  - by exists self.
  - simpl. destruct (Emitter.particles self !! i) as [p |] eqn:Hi;
      [| by exists self].
    destruct (loop_body_steady dt i p self tape Hkind Hvalid Hi)
      as (self1 & -> & Hcfg & Hsub).
    { by eapply Forall_lookup_1 in Hall. }
    simpl.
    destruct (IH dt (S i) self1 tape) as (self' & -> & Hsub').
    + by rewrite Hcfg.
    + by rewrite Hcfg.
    + rewrite Hcfg.
      eapply profile_sublist_Forall; [apply steady_profile | exact Hsub | exact Hall].
    + exists self'. split; [reflexivity |]. by etrans.
Qed.

Lemma room_filter_total self rc l :
  room_rect self = Ok rc →
  ∃ kept, room_filter self l = Ok kept ∧ kept `sublist_of` l.
Proof.
  intros Hrc. induction l as [| p l (kept & IH & Hsub)]; [by exists [] |].
  simpl. rewrite Hrc, IH. simpl. eexists. split; [reflexivity |].
  destruct (collidepoint rc (Particle.position p));
    [by apply sublist_skip | by apply sublist_cons].
Qed.

Lemma room_rect_total self :
  ¬ (Vector2.x (Emitter.dimensions self) == 0)%Q →
  ¬ (Vector2.y (Emitter.dimensions self) == 0)%Q →
  ∃ rc, room_rect self = Ok rc.
Proof.
  intros Hx Hy. unfold room_rect.
  rewrite (py_floordiv_nonzero _ _ Hx), (py_floordiv_nonzero _ _ Hy).
  simpl. by eexists.
Qed.

Lemma update_particles_steady dt self tape :
  particle_type (Emitter.p_base self) = ANIMATION
  ∨ particle_type (Emitter.p_base self) = LINE →
  valid_color (color_end (Emitter.p_base self)) →
  ¬ (Vector2.x (Emitter.dimensions self) == 0)%Q →
  ¬ (Vector2.y (Emitter.dimensions self) == 0)%Q →
  Forall (steady (Emitter.p_base self)) (Emitter.particles self) →
  ∃ self',
    __update_particles dt self tape = Ok (self', tape)
    ∧ (profile <$> Emitter.particles self')
        `sublist_of` (profile <$> Emitter.particles self).
Proof.
  intros Hkind Hvalid Hx Hy Hall. unfold __update_particles.
  destruct (room_rect_total self Hx Hy) as [rc Hrc].
  destruct (room_filter_total self rc (Emitter.particles self) Hrc)
    as (kept & -> & Hkept).
  simpl.
  destruct (particle_loop_steady (length kept) dt 0
              (Emitter.set_particles kept self) tape Hkind Hvalid)
    as (self' & -> & Hsub).
  { simpl. by eapply Forall_sublist_of. }
  exists self'. split; [reflexivity |].
  etrans; [exact Hsub |]. simpl. by apply fmap_sublist.
Qed.

Lemma spawn_particle_born self tape :
  shape_available (Emitter.p_base self) = true →
  ∃ p tape', __spawn_particle self tape = Ok (after_spawn self [p], tape')
    ∧ born (Emitter.p_base self) p.
Proof.
  intros Hav. unfold __spawn_particle.
  destruct (random_uniform 0 (Vector2.x (Emitter.size self)) tape)
    as [rnd_x tape1].
  destruct (random_uniform 0 (Vector2.y (Emitter.size self)) tape1)
    as [rnd_y tape2].
  destruct (random_uniform (3 # 10) (6 # 10) tape2) as [freq tape3].
  destruct (random_uniform (6 # 10) (2 * math_pi) tape3) as [ph tape4].
  assert (Hxd : ∃ xdir tape5,
            (if random_x_dir (Emitter.p_base self)
             then random_choice (-1)%Z 1%Z tape4 else (1%Z, tape4))
            = (xdir, tape5)
            ∧ (random_x_dir (Emitter.p_base self) = false → xdir = 1%Z)).
  { destruct (random_x_dir (Emitter.p_base self)).
    - destruct (random_choice (-1)%Z 1%Z tape4) as [d tp].
      by exists d, tp.
    - by exists 1%Z, tape4. }
  destruct Hxd as (xdir & tape5 & -> & Hxoff).
  destruct (if random_y_dir (Emitter.p_base self)
            then random_choice (-1)%Z 1%Z tape5 else (1%Z, tape5))
    as [ydir tape6].
  pose proof (random_uniform_within 0
                (random_velocity_deviation (Emitter.p_base self)) tape6) as Hd.
  pose proof (random_uniform_degenerate 0
                (random_velocity_deviation (Emitter.p_base self)) tape6) as Hz.
  destruct (random_uniform 0 (random_velocity_deviation (Emitter.p_base self)) tape6)
    as [dev tape7].
  simpl in Hd, Hz.
  assert (Hshape : ∃ psurf,
            match particle_type (Emitter.p_base self) with
            | RECT =>
                s ← _get_rect_surface (start_size (Emitter.p_base self));
                Ok (Some (Surface_fill (color_start (Emitter.p_base self)) s))
            | CIRCLE =>
                s ← _get_circle_surface (start_size (Emitter.p_base self));
                Ok (Some (Surface_fill (color_start (Emitter.p_base self)) s))
            | ANIMATION => Ok None
            | LINE => Ok None
            end = Ok psurf).
  { destruct (particle_type (Emitter.p_base self)) eqn:Hk.
    - apply shape_available_rect in Hav; [| done].
      destruct (get_rect_surface_ok _ Hav) as [s ->]. by eexists.
    - apply shape_available_circle in Hav; [| done].
      rewrite _get_circle_surface_range, bool_decide_eq_true_2 by done.
      by eexists.
    - by eexists.
    - by eexists. }
  destruct Hshape as [psurf ->]. simpl.
  eexists _, _. split; [reflexivity |].
  unfold born. simpl. split_and!; [done | ring |].
  intros Hdir Hdev. rewrite (Hxoff Hdir). change (inject_Z 1) with 1%Q.
  destruct (Qlt_le_dec 0 (random_velocity_deviation (Emitter.p_base self)))
    as [Hpos | Hnon].
  - destruct (Hd Hpos). split; lra.
  - assert (Hzero : (random_velocity_deviation (Emitter.p_base self) == 0)%Q)
      by lra.
    specialize (Hz Hzero). split; lra.
Qed.

Lemma spawn_loop_born n : ∀ self tape,
  shape_available (Emitter.p_base self) = true →
  ∃ spawned tape',
    spawn_loop n self tape = Ok (after_spawn self spawned, tape')
    ∧ Forall (born (Emitter.p_base self)) spawned.
Proof.
  induction n as [| n IH]; intros self tape Hav.
  - exists [], tape. split; [| done]. simpl. do 2 f_equal.
    unfold after_spawn, Emitter.set_particle_count, Emitter.set_particles.
    destruct self. simpl. rewrite app_nil_r. f_equal. lia.
  - simpl. destruct (spawn_particle_born self tape Hav) as (p & tape1 & -> & Hp).
    simpl. destruct (IH (after_spawn self [p]) tape1 Hav)
      as (spawned & tape2 & -> & Hall).
    exists (p :: spawned), tape2. split; [| by constructor].
    by rewrite after_spawn_app.
Qed.

Lemma update_auto_born self tape :
  shape_available (Emitter.p_base self) = true →
  ∃ mid tape' spawned,
    __update_auto self tape = Ok (mid, tape')
    ∧ Forall (born (Emitter.p_base self)) spawned
    ∧ Emitter.particles mid = Emitter.particles self ++ spawned
    ∧ Emitter.p_base mid = Emitter.p_base self
    ∧ Emitter.dimensions mid = Emitter.dimensions self.
Proof.
  intros Hav. unfold __update_auto.
  destruct (Qle_bool _ _).
  2:{ exists self, tape, []. by rewrite app_nil_r. }
  destruct (random_randint 0 100 tape) as [n tape1].
  destruct (Qlt_bool _ _).
  2:{ exists self, tape1, []. by rewrite app_nil_r. }
  unfold __spawn_particle_rate.
  destruct (spawn_loop_born (Z.to_nat (spawn_rate (Emitter.p_base self)))
              self tape1 Hav) as (spawned & tape2 & -> & Hall).
  simpl. by eexists _, tape2, spawned.
Qed.

Lemma stub_shape_available cfg :
  particle_type cfg = ANIMATION ∨ particle_type cfg = LINE →
  shape_available cfg = true.
Proof. unfold shape_available. by intros [-> | ->]. Qed.

Lemma born_steady cfg p :
  color_start cfg = color_end cfg → ¬ (lifetime cfg == 0)%Q →
  born cfg p → steady cfg p.
Proof.
  intros Hramp Hlife (Hc & Hl & _). split; [congruence |]. by rewrite Hl.
Qed.

Lemma update_steady dt self tape :
  particle_type (Emitter.p_base self) = ANIMATION
  ∨ particle_type (Emitter.p_base self) = LINE →
  valid_color (color_end (Emitter.p_base self)) →
  color_start (Emitter.p_base self) = color_end (Emitter.p_base self) →
  ¬ (lifetime (Emitter.p_base self) == 0)%Q →
  ¬ (Vector2.x (Emitter.dimensions self) == 0)%Q →
  ¬ (Vector2.y (Emitter.dimensions self) == 0)%Q →
  Forall (steady (Emitter.p_base self)) (Emitter.particles self) →
  ∃ self' tape' spawned,
    update dt self tape = Ok (self', tape')
    ∧ Forall (born (Emitter.p_base self)) spawned
    ∧ (profile <$> Emitter.particles self')
        `sublist_of` (profile <$> (Emitter.particles self ++ spawned))
    ∧ Emitter.p_base self' = Emitter.p_base self
    ∧ Emitter.dimensions self' = Emitter.dimensions self.
Proof.
  intros Hkind Hvalid Hramp Hlife Hx Hy Hall. rewrite update_unfold.
  assert (Hmid : ∃ mid tape1 spawned,
            (if Emitter.is_active self then
               match spawn_type (Emitter.p_base self) with
               | AUTO => __update_auto (begin_frame dt self) tape
               | EVENT => __update_spawn (begin_frame dt self) tape
               end
             else Ok (begin_frame dt self, tape)) = Ok (mid, tape1)
            ∧ Forall (born (Emitter.p_base self)) spawned
            ∧ Emitter.particles mid = Emitter.particles self ++ spawned
            ∧ Emitter.p_base mid = Emitter.p_base self
            ∧ Emitter.dimensions mid = Emitter.dimensions self).
  { destruct (Emitter.is_active self).
    - destruct (spawn_type (Emitter.p_base self)).
      + apply (update_auto_born (begin_frame dt self) tape).
        by apply stub_shape_available.
      + exists (begin_frame dt self), tape, []. simpl. by rewrite app_nil_r.
    - exists (begin_frame dt self), tape, []. simpl. by rewrite app_nil_r. }
  destruct Hmid as (mid & tape1 & spawned & -> & Hborn & Hl & Hcfg & Hdim).
  simpl.
  destruct (update_particles_steady dt mid tape1) as (self' & Hrun & Hsub).
  - by rewrite Hcfg.
  - by rewrite Hcfg.
  - by rewrite Hdim.
  - by rewrite Hdim.
  - rewrite Hcfg, Hl. apply Forall_app. split; [exact Hall |].
    eapply Forall_impl; [exact Hborn |]. intros p. by apply born_steady.
  - exists self', tape1, spawned. rewrite Hrun. split_and!.
    + reflexivity.
    + exact Hborn.
    + by rewrite <- Hl.
    + apply update_particles_frame_fields in Hrun. rewrite Hrun. exact Hcfg.
    + apply update_particles_frame_fields in Hrun. rewrite Hrun. exact Hdim.
Qed.


End Steady.


(** ** Configuration as a whole *)

Section Configure.
Context `{Externals}.

Lemma of_attrs_to_attrs s : of_attrs (to_attrs s) = Some s.
Proof. destruct s as [? ? ? ? ? ? ? ? ? ? ? ? ? ? ? ? [] [] ? ? ? ?]; reflexivity. Qed.

Lemma to_attrs_undeclared s f : f ∉ fields → to_attrs s !! f = None.
Proof. intros Hf. by apply not_elem_of_list_to_map_1. Qed.

Lemma to_attrs_declared s f : f ∈ fields → is_Some (to_attrs s !! f).
Proof.
  intros Hf. unfold fields in Hf.
  repeat (apply elem_of_cons in Hf as [-> | Hf]; [by eexists |]).
  by apply elem_of_nil in Hf.
Qed.

Lemma of_attrs_ext (m m' : gmap string PyValue) :
  (∀ f, f ∈ fields → m !! f = m' !! f) → of_attrs m = of_attrs m'.
Proof.
  intros Hext. unfold of_attrs.
  repeat match goal with
         | |- context [m !! ?k] => rewrite (Hext k) by compute_done
         end.
  reflexivity.
Qed.

Lemma apply_config_to_attrs s old :
  apply_config (to_attrs s) (to_attrs old) = Ok (to_attrs s).
Proof.
  destruct (apply_config_total (to_attrs s) (to_attrs old)) as [attrs Hrun].
  { intros f Hf. unfold color_fields in Hf.
    repeat (apply elem_of_cons in Hf as [-> | Hf]; [by eexists |]).
    by apply elem_of_nil in Hf. }
  rewrite Hrun. f_equal. apply map_eq. intros f.
  rewrite (apply_config_lookup _ _ _ f Hrun).
  destruct (decide (f ∈ fields)) as [Hf | Hf].
  - rewrite bool_decide_eq_true_2 by done. unfold fields in Hf.
    repeat (apply elem_of_cons in Hf as [-> | Hf]; [reflexivity |]).
    by apply elem_of_nil in Hf.
  - rewrite bool_decide_eq_false_2 by done.
    by rewrite !to_attrs_undeclared.
Qed.

Lemma emitter_apply_config_to_attrs s self :
  ParticleEmitter_apply_config (to_attrs s) self = Ok (Emitter.set_p_base s self).
Proof.
  unfold ParticleEmitter_apply_config.
  rewrite apply_config_to_attrs. cbn [mbind PyResult_bind].
  rewrite of_attrs_to_attrs. reflexivity.
Qed.

Lemma from_kwargs_lookup kwargs f :
  from_kwargs kwargs !! f =
    if bool_decide (f ∈ fields)
    then match kwargs !! f with
         | Some v => Some v
         | None => to_attrs default_settings !! f
         end
    else None.
Proof.
  unfold from_kwargs. rewrite lookup_union, map_lookup_filter.
  pose proof (to_attrs_undeclared default_settings f) as Hund.
  set (d := to_attrs default_settings !! f) in *. clearbody d.
  destruct (decide (f ∈ fields)) as [Hf | Hf].
  - rewrite (bool_decide_eq_true_2 _ Hf).
    destruct (kwargs !! f) as [v |]; cbn [mbind option_bind fst].
    + rewrite option_guard_True by exact Hf. cbn [mbind option_bind].
      destruct d; reflexivity.
    + destruct d; reflexivity.
  - rewrite (bool_decide_eq_false_2 _ Hf), (Hund Hf).
    destruct (kwargs !! f) as [v |]; cbn [mbind option_bind fst].
    + rewrite option_guard_False by exact Hf. reflexivity.
    + reflexivity.
Qed.

Lemma from_kwargs_declared kwargs f :
  f ∈ fields → is_Some (from_kwargs kwargs !! f).
Proof.
  intros Hf. rewrite from_kwargs_lookup, (bool_decide_eq_true_2 _ Hf).
  destruct (kwargs !! f); [eexists; reflexivity | apply to_attrs_declared, Hf].
Qed.

Lemma of_attrs_colors (m : gmap string PyValue) s :
  of_attrs m = Some s →
  m !! "color_start" = Some (PyColor (color_start s))
  ∧ m !! "color_end" = Some (PyColor (color_end s)).
Proof.
  unfold of_attrs. intros Hm.
  repeat (apply bind_Some in Hm as (? & ? & Hm)).
  injection Hm as <-. simpl.
  repeat match goal with
         | Hb : _ ≫= as_color = Some _ |- _ =>
             apply bind_Some in Hb as ([] & -> & Hb); try discriminate;
             injection Hb as ->
         end.
  done.
Qed.

Lemma init_typed position size kwargs s :
  of_attrs (from_kwargs kwargs) = Some s →
  __init__ position size kwargs = Ok (fresh_emitter position size s).
Proof.
  intros Htyped. unfold __init__, ParticleEmitter_apply_config.
  cbn [Emitter.p_base].
  destruct (of_attrs_colors _ _ Htyped) as [Hcs Hce].
  destruct (apply_config_total (from_kwargs kwargs) (to_attrs default_settings))
    as [attrs Hrun].
  { intros f Hf. unfold color_fields in Hf. unfold incoming.
    apply elem_of_cons in Hf as [-> | Hf]; [rewrite Hcs; eexists; reflexivity |].
    apply list_elem_of_singleton in Hf as ->. rewrite Hce.
    eexists; reflexivity. }
  rewrite Hrun. cbn [mbind PyResult_bind].
  rewrite (of_attrs_ext attrs (from_kwargs kwargs)), Htyped; [reflexivity |].
  intros f Hf. rewrite (apply_config_lookup _ _ _ f Hrun).
  rewrite (bool_decide_eq_true_2 _ Hf). unfold incoming.
  destruct (from_kwargs_declared kwargs f Hf) as [v Hv]. rewrite Hv.
  cbn [mbind option_bind].
  destruct v as [n | q | flag | txt | c]; try reflexivity.
  unfold applied_value.
  destruct (decide (f ∈ color_fields)) as [Hcol | Hcol].
  - unfold color_fields in Hcol.
    apply elem_of_cons in Hcol as [-> | Hcol]; [congruence |].
    apply list_elem_of_singleton in Hcol as ->. congruence.
  - rewrite (bool_decide_eq_false_2 _ Hcol). reflexivity.
Qed.

Lemma from_kwargs_undeclared_only kwargs :
  (∀ f, f ∈ fields → kwargs !! f = None) →
  from_kwargs kwargs = to_attrs default_settings.
Proof.
  intros Hnone. apply map_eq. intros f. rewrite from_kwargs_lookup.
  destruct (decide (f ∈ fields)) as [Hf | Hf].
  - rewrite (bool_decide_eq_true_2 _ Hf), (Hnone f Hf). reflexivity.
  - rewrite (bool_decide_eq_false_2 _ Hf), (to_attrs_undeclared _ _ Hf).
    reflexivity.
Qed.

(** X17.  Applying a settings object replaces the emitter's settings by it,
    field for field, whatever they were before, and touches nothing
    else of the emitter: the reflection loop over the declared fields
    followed by the two colour checks comes to one assignment. *)
Theorem apply_config_replaces_the_settings s self :
  ParticleEmitter_apply_config (to_attrs s) self = Ok (Emitter.set_p_base s self)
  ∧ apply_config (to_attrs s) (to_attrs (Emitter.p_base self)) = Ok (to_attrs s)
  ∧ of_attrs (to_attrs s) = Some s.
Proof.
  split_and!;
    [apply emitter_apply_config_to_attrs | apply apply_config_to_attrs
    | apply of_attrs_to_attrs].
Qed.

(** X18.  [from_kwargs] keeps exactly the keyword arguments that name a
    declared field, over the dataclass defaults; so the constructor
    ignores every other keyword argument (also [position], [size] and
    [parent] as settings), starts with no particles, zero clocks, a
    64x64 room and the emitter switched on, and with the default
    settings when no keyword argument names a field. *)
Theorem init_builds_a_fresh_emitter position size kwargs :
  (∀ f, from_kwargs kwargs !! f =
     if bool_decide (f ∈ fields)
     then match kwargs !! f with
          | Some v => Some v
          | None => to_attrs default_settings !! f
          end
     else None)
  ∧ (∀ s, of_attrs (from_kwargs kwargs) = Some s →
       __init__ position size kwargs = Ok (fresh_emitter position size s))
  ∧ ((∀ f, f ∈ fields → kwargs !! f = None) →
     __init__ position size kwargs
     = Ok (fresh_emitter position size default_settings)).
Proof.
  split_and!.
  - apply from_kwargs_lookup.
  - apply init_typed.
  - intros Hnone. apply init_typed.
    rewrite (from_kwargs_undeclared_only _ Hnone). apply of_attrs_to_attrs.
Qed.

End Configure.

Lemma init_builds_a_fresh_emitter_witness :
  ∃ s,
    __init__ (H := reference_externals) (Some (Vector2.mk 3 4)) None
      (list_to_map [("lifetime", PyInt 5); ("parent", PyBool false)])
    = Ok (fresh_emitter (Some (Vector2.mk 3 4)) None s)
    ∧ lifetime s = 5%Q ∧ spawn_rate s = 1%Z.
Proof.
  destruct (of_attrs (from_kwargs
              (list_to_map [("lifetime", PyInt 5); ("parent", PyBool false)])))
    as [s |] eqn:Htyped; [| vm_compute in Htyped; discriminate].
  exists s. split.
  - by apply (init_builds_a_fresh_emitter (H := reference_externals)).
  - vm_compute in Htyped. injection Htyped as <-. by split.
Defined.

(** ** main.py *)

Section Main.
Context `{Externals}.
Hypothesis sqrt_nonzero : ∀ v, (0 < v)%Q → ¬ (math_sqrt v == 0)%Q.

Lemma main_emitter_Ok :
  main_emitter
  = Ok (set_room_dimensions (Vector2.mk 800 600)
          (fresh_emitter (Some (Vector2.mk 799 0)) (Some (Vector2.mk 4 600))
             ExampleSettings)).
Proof.
  unfold main_emitter.
  rewrite (init_typed _ _ ∅ default_settings) by (vm_compute; reflexivity).
  cbn [mbind PyResult_bind].
  rewrite emitter_apply_config_to_attrs. reflexivity.
Qed.

Lemma born_example_moving_left p :
  born ExampleSettings p → steady ExampleSettings p ∧ moving_left p.
Proof.
  intros Hborn. split.
  - apply born_steady; [reflexivity | simpl; lra | exact Hborn].
  - destruct Hborn as (_ & _ & Hvel). unfold moving_left.
    destruct Hvel as [_ Hup]; [reflexivity | simpl; lra |].
    simpl in Hup. lra.
Qed.

Lemma moving_left_not_zero p : moving_left p → ¬ zero_velocity p.
Proof. unfold moving_left. intros Hp [Hx _]. lra. Qed.

Lemma main_frame_invariant dt emitter tape :
  main_invariant emitter →
  ∃ emitter' tape' calls,
    main_frame dt emitter tape = Ok (emitter', tape', calls)
    ∧ main_invariant emitter'.
Proof.
  intros (Hcfg & Hdim & Hall).
  destruct (update_steady dt emitter tape)
    as (e' & tape' & spawned & Hrun & Hborn & Hsub & Hcfg' & Hdim').
  { rewrite Hcfg. by right. }
  { rewrite Hcfg. unfold valid_color. simpl. lia. }
  { by rewrite Hcfg. }
  { rewrite Hcfg. simpl. lra. }
  { rewrite Hdim. simpl. lra. }
  { rewrite Hdim. simpl. lra. }
  { rewrite Hcfg. eapply Forall_impl; [exact Hall |]. by intros p [Hp _]. }
  rewrite Hcfg in Hborn, Hcfg'.
  assert (Hall' : Forall (λ p, steady ExampleSettings p ∧ moving_left p)
                         (Emitter.particles e')).
  { eapply profile_sublist_Forall; [| exact Hsub |].
    - intros p q Heq [Hs Hm].
      split; [by eapply steady_profile | by eapply moving_left_profile].
    - apply Forall_app. split; [exact Hall |].
      eapply Forall_impl; [exact Hborn |]. apply born_example_moving_left. }
  destruct (render_lines_nonzero sqrt_nonzero (0, 0)%Z (Emitter.particles e'))
    as (lines & Hlines & Hlen).
  { eapply Forall_impl; [exact Hall' |].
    intros p [_ Hp]. by apply moving_left_not_zero. }
  unfold main_frame. rewrite Hrun. simpl.
  unfold render. rewrite Hcfg'. simpl. rewrite Hlines. simpl.
  eexists _, _, _. split; [reflexivity |].
  split_and!; [exact Hcfg' | by rewrite Hdim', Hdim | exact Hall'].
Qed.

Lemma main_loop_invariant dts : ∀ emitter tape,
  main_invariant emitter →
  ∃ emitter' tape',
    main_loop dts emitter tape = Ok (emitter', tape')
    ∧ main_invariant emitter'.
Proof.
  induction dts as [| dt dts IH]; intros emitter tape Hinv.
  - by exists emitter, tape.
  - simpl.
    destruct (main_frame_invariant dt emitter tape Hinv)
      as (e1 & tape1 & calls & -> & Hinv1).
    simpl. by apply IH.
Qed.

(** X19.  The demo of [main.py] cannot fail inside the emitter: the emitter
    is set up without error, and then, whatever frame times the clock
    reports and whatever the generator draws, every [update] and every
    [render] of the loop completes.  What carries this from frame to
    frame: the settings stay those of [ExampleSettings], the room stays
    800x600, and every live particle is white with a nonzero lifetime
    and drifts to the left, so no division in [update] or [render]
    meets a zero ([math.sqrt] being nonzero on positive numbers). *)
Theorem main_loop_never_raises (dts : list Q) (tape : Tape) :
  ∃ emitter0 emitter tape',
    main_emitter = Ok emitter0
    ∧ main_loop dts emitter0 tape = Ok (emitter, tape')
    ∧ main_invariant emitter.
Proof.
  rewrite main_emitter_Ok.
  destruct (main_loop_invariant dts
              (set_room_dimensions (Vector2.mk 800 600)
                 (fresh_emitter (Some (Vector2.mk 799 0))
                    (Some (Vector2.mk 4 600)) ExampleSettings)) tape)
    as (emitter & tape' & Hrun & Hinv).
  { split_and!; [reflexivity | reflexivity | constructor]. }
  by eexists _, emitter, tape'.
Qed.

End Main.

Lemma main_loop_never_raises_witness :
  ∃ emitter0 emitter tape',
    main_emitter (H := reference_externals) = Ok emitter0
    ∧ main_loop (H := reference_externals) [(1 # 10)%Q; (1 # 60)%Q] emitter0
        [7%Q; (1 # 2)%Q; (1 # 4)%Q]
      = Ok (emitter, tape')
    ∧ main_invariant emitter.
Proof.
  apply (main_loop_never_raises (H := reference_externals)).
  exact sqrt_approx_nonzero.
Defined.

(** ** Rendering the batched kinds *)

Section RenderBatch.
Context `{Externals}.




End RenderBatch.

